(** * Wind turbine performance simulation: the numeric core of [app.py]

    A shallow embedding of the functions of [src/app.py] that compute
    something (the power law, the capacity factor, the preset table, the
    per-sample loop of [main], the energy figures and the exported
    table), and the properties stated about them.

    Numbers.  Python floats (and numpy [float64]) are idealised as real
    numbers: rounding and overflow are not modelled.  The two places
    where IEEE arithmetic leaves the reals -- a division by zero and the
    mean of an empty array -- are kept, through the type [npfloat].
    [np.pi] is the real number [PI].  Where rounding decides a property,
    the capacity factor is also given on binary64 numbers ([Binary64])
    and for an arbitrary rounding of the real results ([np_sum_rounded],
    [capacity_factor_rounded]). *)

From Stdlib Require Import Reals Lra Lia List.
From Stdlib Require Import Machin.
From Stdlib Require Import Floats Uint63.
From Stdlib Require Import Ascii String NArith.
From stdpp Require Import base strings list gmap.

Open Scope R_scope.

(** ** Numbers and outcomes *)

#[global] Instance Rlt_decision (x y : R) : Decision (x < y) := Rlt_dec x y.
#[global] Instance Rgt_decision (x y : R) : Decision (x > y) := Rgt_dec x y.
#[global] Instance Rle_decision (x y : R) : Decision (x <= y) := Rle_dec x y.
#[global] Instance Rge_decision (x y : R) : Decision (x >= y) := Rge_dec x y.
#[global] Instance Req_decision : EqDecision R := Req_dec_T.

(** A numpy [float64]: a real, an infinity or NaN. *)
Inductive npfloat : Type :=
  | Fin (x : R)
  | PInf
  | NInf
  | NaN.

(** A call either returns a value or raises.  [InvalidArgument] is the
    error the specification names; the other two are the Python errors an
    arithmetic expression can raise. *)
Inductive exception : Type :=
  | InvalidArgument
  | ZeroDivisionError
  | TypeError.

Inductive outcome (A : Type) : Type :=
  | Returns (v : A)
  | Raises (e : exception).
Arguments Returns {A} v.
Arguments Raises {A} e.

#[global] Instance outcome_ret : MRet outcome := fun A v => Returns v.
#[global] Instance outcome_bind : MBind outcome := fun A B f m =>
  match m with
  | Returns v => f v
  | Raises e => Raises e
  end.

(** [a / b] for a [float64] [a] and a number [b].  numpy warns on a
    division by zero and returns an infinity or NaN; it does not raise. *)
Definition np_truediv (a : npfloat) (b : R) : npfloat :=
  match a with
  | NaN => NaN
  | Fin x =>
      if bool_decide (b = 0)
      then (if bool_decide (x = 0) then NaN
            else if bool_decide (0 < x) then PInf else NInf)
      else Fin (x / b)
  | PInf => if bool_decide (b < 0) then NInf else PInf
  | NInf => if bool_decide (b < 0) then PInf else NInf
  end.

(** [a * b] for a [float64] [a] and a number [b]. *)
Definition np_multiply (a : npfloat) (b : R) : npfloat :=
  match a with
  | NaN => NaN
  | Fin x => Fin (x * b)
  | PInf => if bool_decide (b = 0) then NaN
            else if bool_decide (0 < b) then PInf else NInf
  | NInf => if bool_decide (b = 0) then NaN
            else if bool_decide (0 < b) then NInf else PInf
  end.

(** [np.sum] and [np.mean] of a one-dimensional array: the mean is the sum
    divided by the number of elements, so the mean of the empty array is
    [0.0 / 0], which is NaN (with a warning, no exception). *)
Definition np_sum (a : list R) : R := fold_right Rplus 0 a.

Definition np_mean (a : list R) : outcome npfloat :=
  Returns (np_truediv (Fin (np_sum a)) (INR (length a))).

(** Python's [min(a, b)]: the first argument unless the second is smaller. *)
Definition py_min (a b : R) : R := if bool_decide (b < a) then b else a.

(** Element-wise numpy operations used by the export. *)
Definition np_greater_equal (a : list R) (c : R) : list bool :=
  map (fun x => bool_decide (x >= c)) a.
Definition np_less_equal (a : list R) (c : R) : list bool :=
  map (fun x => bool_decide (x <= c)) a.
Definition np_and (a b : list bool) : list bool := zip_with andb a b.
Definition np_where {A : Type} (cond : list bool) (x y : A) : list A :=
  map (fun c : bool => if c then x else y) cond.
Definition np_divide (a : list R) (c : R) : list R := map (fun x => x / c) a.

(** ** The power law *)

(** [calculate_power_output(wind_speed, air_density, blade_radius,
    power_coefficient)], lines 75-82. *)
Definition calculate_power_output
  (wind_speed air_density blade_radius power_coefficient : R) : R :=
  let swept_area := PI * blade_radius ^ 2 in
  let power :=
    0.5 * air_density * swept_area * power_coefficient * (wind_speed ^ 3) in
  power.

(** ** The capacity factor *)

(** [calculate_capacity_factor(power_outputs, rated_power)], lines 90-95.
    There is no guard on either argument. *)
Definition calculate_capacity_factor
  (power_outputs : list R) (rated_power : R) : outcome npfloat :=
  average_power ← np_mean power_outputs;
  mret (np_truediv average_power rated_power).

(** ** The presets *)

(** The values of a preset record: Python floats and ints. *)
Inductive pyval : Type :=
  | PyFloat (x : R)
  | PyInt (n : Z).

(** The [presets] dictionary of [get_preset_parameters], lines 99-115. *)
Definition presets : gmap string (gmap string pyval) :=
  {[ "Small (1 MW)" :=
       {[ "blade_radius" := PyFloat 32.0;
          "power_coefficient" := PyFloat 0.42;
          "rated_power" := PyInt 1000 ]};
     "Medium (2 MW)" :=
       {[ "blade_radius" := PyFloat 45.0;
          "power_coefficient" := PyFloat 0.45;
          "rated_power" := PyInt 2000 ]};
     "Large (5 MW)" :=
       {[ "blade_radius" := PyFloat 63.0;
          "power_coefficient" := PyFloat 0.48;
          "rated_power" := PyInt 5000 ]} ]}.

(** [get_preset_parameters(preset_name)]: [presets.get(preset_name, {})]. *)
Definition get_preset_parameters (preset_name : string) : gmap string pyval :=
  default ∅ (presets !! preset_name).

(** ** The simulation run of [main] *)

(** The table handed to [create_download_link], a column per key. *)
Record DataFrame : Type := {
  Wind_Speed_m_s : list R;
  Power_Output_W : list R;
  Power_Output_kW : list R;
  Operating_Status : list string
}.

Section Main.
(** The values read from the sidebar widgets. *)
Variables (air_density blade_radius power_coefficient : R).
Variable rated_power : Z.
Variables (cut_in_speed cut_out_speed : R).

(** Line 195: kW to W. *)
Definition rated_power_watts : R := IZR (rated_power * 1000).

(** The body of the loop of lines 265-270: one sample appended. *)
Definition loop_body (power_outputs : list R) (speed : R) : list R :=
  if bool_decide (speed < cut_in_speed) || bool_decide (speed > cut_out_speed)
  then power_outputs ++ [0]
  else
    let power :=
      calculate_power_output speed air_density blade_radius power_coefficient in
    power_outputs ++ [py_min power rated_power_watts].

(** Lines 264-272: the list starts empty and the loop runs over
    [wind_speeds] in order. *)
Definition power_outputs (wind_speeds : list R) : list R :=
  fold_left loop_body wind_speeds [].

(** Line 276. *)
Definition average_power (wind_speeds : list R) : outcome npfloat :=
  np_mean (power_outputs wind_speeds).

(** Line 275. *)
Definition capacity_factor (wind_speeds : list R) : outcome npfloat :=
  calculate_capacity_factor (power_outputs wind_speeds) rated_power_watts.

(** Lines 483-488. *)
Definition full_data (wind_speeds : list R) : DataFrame :=
  {| Wind_Speed_m_s := wind_speeds;
     Power_Output_W := power_outputs wind_speeds;
     Power_Output_kW := np_divide (power_outputs wind_speeds) 1000;
     Operating_Status :=
       np_where
         (np_and (np_greater_equal wind_speeds cut_in_speed)
                 (np_less_equal wind_speeds cut_out_speed))
         "Operating"%string "Idle"%string |}.
End Main.

(** Lines 280-282: the energy figures, from the average power. *)
Definition hours_per_year : R := 8760.

Definition daily_energy (average_power : npfloat) : npfloat :=
  np_truediv (np_multiply average_power 24) 1000.

Definition yearly_energy (average_power : npfloat) : npfloat :=
  np_truediv (np_multiply average_power hours_per_year) 1000000.

(** ** What the specification's words denote *)

(** The arithmetic mean of a sequence of reals: its elements added up
    from the first to the last, over their number.  It is written on its
    own, not through [np_sum]. *)
Definition arithmetic_mean (xs : list R) : R :=
  fold_left Rplus xs 0 / INR (length xs).

(** The value of one sample in the runner's contract. *)
Definition sample_power
  (air_density blade_radius power_coefficient rated cut_in cut_out speed : R) : R :=
  if bool_decide (speed < cut_in \/ speed > cut_out) then 0
  else Rmin (calculate_power_output speed air_density blade_radius power_coefficient)
            rated.

(** The status label of one sample, as the element-wise expression of
    line 487 computes it. *)
Definition status_label (cut_in cut_out speed : R) : string :=
  if bool_decide (speed >= cut_in) && bool_decide (speed <= cut_out)
  then "Operating" else "Idle".

(** ** Further parts of [main] *)

(** [np.linspace(start, stop, num)]: [num] evenly spaced points, the
    [i]-th being [start + i * step] with [step = (stop - start) / (num - 1)];
    on the reals the last one is [stop]. *)
Definition np_linspace (start stop : R) (num : nat) : list R :=
  map (fun i : nat => start + INR i * ((stop - start) / INR (num - 1)))
      (seq 0 num).

(** The options of the preset selectbox, line 148. *)
Definition preset_options : list string :=
  ["Custom"; "Small (1 MW)"; "Medium (2 MW)"; "Large (5 MW)"]%string.

(** Lines 155-193: the default values handed to the three turbine-design
    widgets.  For a preset they are read from the preset record with
    [preset_params[key]]; a missing key raises [KeyError], which is [None]
    here.  For "Custom" they are the literals of lines 179, 185 and 191. *)
Definition turbine_design_defaults (preset : string)
  : option (pyval * pyval * pyval) :=
  if bool_decide (preset <> "Custom"%string) then
    let preset_params := get_preset_parameters preset in
    blade_radius ← preset_params !! "blade_radius"%string;
    power_coefficient ← preset_params !! "power_coefficient"%string;
    rated_power ← preset_params !! "rated_power"%string;
    Some (blade_radius, power_coefficient, rated_power)
  else Some (PyFloat 40.0, PyFloat 0.42, PyInt 2000).

(** The bounds passed to the three widgets: the sliders of lines 157-168
    take floats, the number input of lines 169-174 an int. *)
Definition within_widget_bounds (defaults : pyval * pyval * pyval) : Prop :=
  match defaults with
  | (PyFloat blade_radius, PyFloat power_coefficient, PyInt rated_power) =>
      10.0 <= blade_radius <= 100.0
      /\ 0.1 <= power_coefficient <= 0.59
      /\ (100 <= rated_power <= 10000)%Z
  | _ => False
  end.

(** The table shown on the page, lines 470-474: the first 100 rows. *)
Module Sample.
Record DataFrame : Type := {
  Wind_Speed_m_s : list R;
  Power_Output_kW : list R;
  Operating_Status : list string
}.
End Sample.

Section Charts.
Variables (air_density blade_radius power_coefficient : R).
Variable rated_power : Z.
Variables (cut_in_speed cut_out_speed : R).

(** Line 381. *)
Definition theoretical_speeds : list R := np_linspace 0 30 100.

(** Lines 382-389: the same loop as the run, over the plotted speeds. *)
Definition theoretical_power : list R :=
  fold_left
    (loop_body air_density blade_radius power_coefficient rated_power
       cut_in_speed cut_out_speed)
    theoretical_speeds [].

(** Line 394: the plotted ordinates, in kW. *)
Definition power_curve_kW : list R := np_divide theoretical_power 1000.

(** Lines 470-474; [a[:100]] is [take 100 a]. *)
Definition sample_data (wind_speeds : list R) : Sample.DataFrame :=
  let power_outputs :=
    power_outputs air_density blade_radius power_coefficient rated_power
      cut_in_speed cut_out_speed wind_speeds in
  {| Sample.Wind_Speed_m_s := take 100 wind_speeds;
     Sample.Power_Output_kW := np_divide (take 100 power_outputs) 1000;
     Sample.Operating_Status :=
       np_where
         (np_and (np_greater_equal (take 100 wind_speeds) cut_in_speed)
                 (np_less_equal (take 100 wind_speeds) cut_out_speed))
         "Operating"%string "Idle"%string |}.
End Charts.

(** ** The download link *)

(** [base64.b64encode] (RFC 4648): three bytes become four digits of the
    alphabet, and a last group of one or two bytes is padded with [=]. *)
Definition b64_alphabet : string :=
  "ABCDEFGHIJKLMNOPQRSTUVWXYZabcdefghijklmnopqrstuvwxyz0123456789+/".

Definition b64_pad : ascii := "="%char.

Definition b64_digit (n : N) : ascii :=
  default b64_pad (list_ascii_of_string b64_alphabet !! N.to_nat n).

Fixpoint b64encode (data : list ascii) : list ascii :=
  match data with
  | [] => []
  | [a] =>
      let a := N_of_ascii a in
      [b64_digit (a / 4); b64_digit (a mod 4 * 16); b64_pad; b64_pad]
  | [a; b] =>
      let a := N_of_ascii a in
      let b := N_of_ascii b in
      [b64_digit (a / 4); b64_digit (a mod 4 * 16 + b / 16);
       b64_digit (b mod 16 * 4); b64_pad]
  | a :: b :: c :: rest =>
      let a := N_of_ascii a in
      let b := N_of_ascii b in
      let c := N_of_ascii c in
      b64_digit (a / 4) :: b64_digit (a mod 4 * 16 + b / 16)
      :: b64_digit (b mod 16 * 4 + c / 64) :: b64_digit (c mod 64)
      :: b64encode rest
  end%N.

(** The double quote character, and the default of the [filename]
    argument. *)
Definition double_quote : string := String "034"%char EmptyString.

Definition default_filename : string := "wind_turbine_simulation_data.csv".

(** [create_download_link(df, filename)], lines 118-123, from the text
    [csv] that [df.to_csv(index=False)] returns: the serialisation of the
    table is pandas' and is not modelled.  A string is its sequence of
    UTF-8 bytes, so [csv.encode()] and [.decode()] change nothing. *)
Definition create_download_link (csv filename : string) : string :=
  let b64 := string_of_list_ascii (b64encode (list_ascii_of_string csv)) in
  let href :=
    "<a href=" +:+ double_quote +:+ "data:file/csv;base64," +:+ b64
    +:+ double_quote +:+ " download=" +:+ double_quote +:+ filename
    +:+ double_quote +:+ " class=" +:+ double_quote +:+ "stButton"
    +:+ double_quote +:+ ">📥 Download CSV</a>" in
  href.

(** The reading of a base64 text, as the receiver of the link does it.
    It is not part of [app.py]; it serves to state that the payload of
    the link loses nothing. *)
Fixpoint index_of (c : ascii) (l : list ascii) : option nat :=
  match l with
  | [] => None
  | d :: l => if bool_decide (d = c) then Some 0%nat else S <$> index_of c l
  end.

Definition b64_value (c : ascii) : option N :=
  N.of_nat <$> index_of c (list_ascii_of_string b64_alphabet).

Fixpoint b64decode (text : list ascii) : option (list ascii) :=
  match text with
  | [] => Some []
  | c1 :: c2 :: c3 :: c4 :: rest =>
      v1 ← b64_value c1;
      v2 ← b64_value c2;
      if bool_decide (c4 = b64_pad) then
        match rest with
        | [] =>
            if bool_decide (c3 = b64_pad)
            then Some [ascii_of_N (v1 * 4 + v2 / 16)]
            else
              v3 ← b64_value c3;
              Some [ascii_of_N (v1 * 4 + v2 / 16);
                    ascii_of_N (v2 mod 16 * 16 + v3 / 4)]
        | _ :: _ => None
        end
      else
        v3 ← b64_value c3;
        v4 ← b64_value c4;
        tail ← b64decode rest;
        Some (ascii_of_N (v1 * 4 + v2 / 16)
              :: ascii_of_N (v2 mod 16 * 16 + v3 / 4)
              :: ascii_of_N (v3 mod 4 * 64 + v4) :: tail)
  | _ => None
  end%N.

(** ** The capacity factor with its rounding *)

(** The same function on binary64 numbers, each operation rounded as the
    processor does it.  numpy adds the elements of an array of fewer than
    eight elements from the first to the last, starting from [-0.0];
    longer arrays are added in blocks, which is not modelled here. *)
Module Binary64.
Definition np_sum (a : list float) : float :=
  fold_left PrimFloat.add a (-0)%float.

Definition np_mean (a : list float) : float :=
  PrimFloat.div (np_sum a)
    (PrimFloat.of_uint63 (Uint63.of_Z (Z.of_nat (length a)))).

Definition calculate_capacity_factor
  (power_outputs : list float) (rated_power : float) : float :=
  let average_power := np_mean power_outputs in
  PrimFloat.div average_power rated_power.
End Binary64.

(** The same function for any rounding [rnd] of the real results, and
    any order of the additions: numpy chooses the order by the length of
    the array, adding partial sums of parts of it.  An overflow to
    infinity is not modelled. *)
Section Rounded.
Variable rnd : R -> R.

(** [np_sum_rounded a s]: [s] is a sum of the array [a], every addition
    rounded.  An empty array sums to 0 and a single element to itself
    ([-0.0 + x] is [x]); otherwise two partial sums are added. *)
Inductive np_sum_rounded : list R -> R -> Prop :=
  | np_sum_rounded_empty : np_sum_rounded [] 0
  | np_sum_rounded_single (x : R) : np_sum_rounded [x] x
  | np_sum_rounded_add (a a1 a2 : list R) (s1 s2 : R) :
      a ≡ₚ a1 ++ a2 ->
      np_sum_rounded a1 s1 -> np_sum_rounded a2 s2 ->
      np_sum_rounded a (rnd (s1 + s2)).

(** The accumulation from the first element to the last, which is one of
    these orders. *)
Definition np_sum_sequential (a : list R) : R :=
  fold_left (fun acc x => rnd (acc + x)) a 0.

(** [np.mean] of a non-empty array, then the division by a non-zero rated
    power, lines 94-95. *)
Definition np_mean_rounded (a : list R) (mean : R) : Prop :=
  exists s : R, np_sum_rounded a s /\ mean = rnd (s / INR (length a)).

Definition capacity_factor_rounded
  (power_outputs : list R) (rated_power : R) (factor : R) : Prop :=
  exists average_power : R,
    np_mean_rounded power_outputs average_power
    /\ factor = rnd (average_power / rated_power).
End Rounded.

(** What is asked of a rounding: it keeps the order, and it leaves the
    whole numbers from 0 to 2^53 as they are.  The rounding to nearest of
    binary64 is one. *)
Definition rounding_monotone (rnd : R -> R) : Prop :=
  forall x y : R, x <= y -> rnd x <= rnd y.

Definition rounding_exact_on_integers (rnd : R -> R) : Prop :=
  forall k : Z, (0 <= k <= 2 ^ 53)%Z -> rnd (IZR k) = IZR k.

(** The rounding down to a whole number, a rounding of this kind. *)
Definition round_down (x : R) : R := IZR (Int_part x).

(** * Properties *)

(** ** The power law *)

Lemma calculate_power_output_unfold v rho r cp :
  calculate_power_output v rho r cp = 0.5 * rho * (PI * r ^ 2) * cp * v ^ 3.
Proof. reflexivity. Qed.

Lemma calculate_power_output_nonneg v rho r cp :
  0 <= v -> 0 <= rho -> 0 <= cp -> 0 <= calculate_power_output v rho r cp.
Proof.
  intros Hv Hrho Hcp. rewrite calculate_power_output_unfold.
  pose proof PI_RGT_0 as Hpi.
  assert (Hr2 : 0 <= r ^ 2) by apply pow2_ge_0.
  assert (Hv3 : 0 <= v ^ 3) by (apply pow_le; exact Hv).
  apply Rmult_le_pos; [apply Rmult_le_pos; [apply Rmult_le_pos|]|]; try lra.
  apply Rmult_le_pos; lra.
Qed.

(** [np.pi] to five digits, from the Machin-like series for [PI / 4]. *)
Lemma PI_bounds : 3.14158 < PI < 3.14160.
Proof.
  destruct (PI_2_3_7_ineq 2) as [Hlo Hhi].
  unfold PI_2_3_7_tg, tg_alt, Ratan_seq in Hlo, Hhi.
  simpl in Hlo, Hhi.
  split; lra.
Qed.

(** The scenario of the specification: a 45 m blade, Cp 0.45, sea-level
    air.  The power is [k * PI * v^3] with [k = 0.5 * 1.225 * 45^2 * 0.45]. *)
Lemma scenario_power v :
  calculate_power_output v 1.225 45.0 0.45 = 558.140625 * PI * v ^ 3.
Proof. rewrite calculate_power_output_unfold. lra. Qed.

(** C3.  The power-curve function is the cubic law
    [0.5 * rho * (pi * r^2) * Cp * v^3] for every input, with nothing
    clipped or validated: in the scenario of the specification it gives
    about 601,480 W at 7 m/s (within 60 W, one part in ten thousand), far
    more than a 2 MW rating at 20 m/s, a positive power below any cut-in
    speed and a negative one for a negative speed. *)
Theorem power_curve_is_cubic_law :
  (forall v rho r cp : R,
     calculate_power_output v rho r cp
     = 0.5 * rho * (PI * (r * r)) * cp * (v * v * v))
  /\ Rabs (calculate_power_output 7 1.225 45.0 0.45 - 601480) < 60
  /\ 14000000 < calculate_power_output 20 1.225 45.0 0.45
  /\ 0 < calculate_power_output 1 1.225 45.0 0.45
  /\ calculate_power_output (-1) 1.225 45.0 0.45 < 0.
Proof.
  pose proof PI_bounds as [Hlo Hhi].
  split; [| rewrite !scenario_power; repeat split].
  - intros v rho r cp. rewrite calculate_power_output_unfold. simpl. ring.
  - apply Rabs_def1; simpl; lra.
  - simpl; lra.
  - simpl; lra.
  - simpl; lra.
Qed.



(** ** The simulation run *)

Lemma py_min_Rmin (a b : R) : py_min a b = Rmin a b.
Proof.
  unfold py_min, Rmin. case_bool_decide; destruct (Rle_dec a b); lra.
Qed.

Lemma rated_power_watts_pos (rated_power : Z) :
  (0 < rated_power)%Z -> 0 < rated_power_watts rated_power.
Proof. intros H. unfold rated_power_watts. apply IZR_lt. lia. Qed.

Lemma rated_power_watts_eq (rated_power : Z) :
  rated_power_watts rated_power = IZR rated_power * 1000.
Proof. unfold rated_power_watts. now rewrite mult_IZR. Qed.

Section Runner.
Variables (air_density blade_radius power_coefficient : R).
Variable rated_power : Z.
Variables (cut_in_speed cut_out_speed : R).

#[local] Abbreviation rated := (rated_power_watts rated_power).
#[local] Abbreviation run := (power_outputs air_density blade_radius power_coefficient
                   rated_power cut_in_speed cut_out_speed).
#[local] Abbreviation contract := (sample_power air_density blade_radius power_coefficient
                        rated cut_in_speed cut_out_speed).
#[local] Abbreviation power_at speed :=
  (calculate_power_output speed air_density blade_radius power_coefficient).

(** One turn of the loop appends the contract's value for the sample. *)
Lemma loop_body_snoc (acc : list R) (speed : R) :
  loop_body air_density blade_radius power_coefficient rated_power
    cut_in_speed cut_out_speed acc speed
  = acc ++ [contract speed].
Proof.
  unfold loop_body, sample_power. rewrite py_min_Rmin.
  repeat case_bool_decide; simpl; try reflexivity; tauto.
Qed.

(** The loop, started from any accumulated list. *)
Lemma loop_from (wind_speeds acc : list R) :
  fold_left
    (loop_body air_density blade_radius power_coefficient rated_power
       cut_in_speed cut_out_speed) wind_speeds acc
  = acc ++ map contract wind_speeds.
Proof.
  revert acc. induction wind_speeds as [|speed rest IH]; intros acc; simpl.
  - now rewrite app_nil_r.
  - rewrite IH, loop_body_snoc, <- app_assoc. reflexivity.
Qed.

Lemma power_outputs_map (wind_speeds : list R) :
  run wind_speeds = map contract wind_speeds.
Proof. unfold power_outputs. now rewrite loop_from. Qed.

Lemma power_outputs_lookup (wind_speeds : list R) (i : nat) :
  run wind_speeds !! i = contract <$> (wind_speeds !! i).
Proof. rewrite power_outputs_map. apply list_lookup_fmap. Qed.

Lemma power_outputs_length (wind_speeds : list R) :
  length (run wind_speeds) = length wind_speeds.
Proof. rewrite power_outputs_map. apply length_map. Qed.

Lemma sample_power_idle (speed : R) :
  speed < cut_in_speed \/ speed > cut_out_speed -> contract speed = 0.
Proof. intros H. unfold sample_power. now rewrite bool_decide_eq_true_2. Qed.

Lemma sample_power_operating (speed : R) :
  ~ (speed < cut_in_speed \/ speed > cut_out_speed) ->
  contract speed = Rmin (power_at speed) rated.
Proof. intros H. unfold sample_power. now rewrite bool_decide_eq_false_2. Qed.

Lemma sample_power_range (speed : R) :
  0 <= speed -> 0 <= air_density -> 0 <= power_coefficient -> 0 <= rated ->
  0 <= contract speed <= rated.
Proof.
  intros Hs Hrho Hcp Hrated. unfold sample_power. case_bool_decide.
  - lra.
  - pose proof (calculate_power_output_nonneg speed air_density blade_radius
                  power_coefficient Hs Hrho Hcp) as Hp.
    split; [apply Rmin_glb; lra | apply Rmin_r].
Qed.
End Runner.

(** C1.  With [cut_in_speed < cut_out_speed] and a positive rated power,
    the runner's output at index [i] is 0 when the speed there is below
    [cut_in_speed] or above [cut_out_speed], and otherwise the smaller of
    the theoretical power and the rated power; a speed equal to either
    limit is operating; and an operating speed whose theoretical power
    exceeds the rated power gives the rated power, which is not 0. *)
Theorem runner_output_at_index
  (wind_speeds : list R) (air_density blade_radius power_coefficient : R)
  (rated_power : Z) (cut_in_speed cut_out_speed : R) (i : nat) (speed : R) :
  cut_in_speed < cut_out_speed ->
  0 < rated_power_watts rated_power ->
  wind_speeds !! i = Some speed ->
  let output :=
    power_outputs air_density blade_radius power_coefficient rated_power
      cut_in_speed cut_out_speed wind_speeds !! i in
  let power :=
    calculate_power_output speed air_density blade_radius power_coefficient in
  (speed < cut_in_speed \/ speed > cut_out_speed -> output = Some 0)
  /\ (~ (speed < cut_in_speed \/ speed > cut_out_speed) ->
      output = Some (Rmin power (rated_power_watts rated_power)))
  /\ (speed = cut_in_speed \/ speed = cut_out_speed ->
      output = Some (Rmin power (rated_power_watts rated_power)))
  /\ (cut_in_speed <= speed <= cut_out_speed ->
      rated_power_watts rated_power < power ->
      output = Some (rated_power_watts rated_power) /\ output <> Some 0).
Proof.
  intros Hlim Hrated Hi output power. subst output power.
  rewrite power_outputs_lookup, Hi. simpl.
  split; [| split; [| split]].
  - intros H. now rewrite sample_power_idle.
  - intros H. now rewrite sample_power_operating.
  - intros H. rewrite sample_power_operating; [reflexivity | lra].
  - intros Hrange Hover. rewrite sample_power_operating by lra.
    rewrite Rmin_right by lra. split; [reflexivity |].
    intros Heq. injection Heq as Heq. lra.
Qed.

Lemma runner_output_at_index_witness :
  power_outputs 1.225 45.0 0.45 2000 3 25 [7; 1; 20] !! 2%nat
  = Some (rated_power_watts 2000)
  /\ power_outputs 1.225 45.0 0.45 2000 3 25 [7; 1; 20] !! 2%nat <> Some 0.
Proof.
  assert (Hlim : 3 < 25) by lra.
  assert (Hrated : 0 < rated_power_watts 2000)
    by (apply rated_power_watts_pos; lia).
  destruct (runner_output_at_index [7; 1; 20] 1.225 45.0 0.45 2000 3 25 2 20
              Hlim Hrated eq_refl) as (_ & _ & _ & Hclamp).
  apply Hclamp; [lra |].
  rewrite scenario_power, rated_power_watts_eq. simpl.
  pose proof PI_bounds. lra.
Defined.

(** C5.  For non-negative wind speeds and positive air density, blade
    radius, power coefficient and rated power, the runner's output has
    the length of its input, is computed sample by sample in the input's
    order, and every value in it lies between 0 and the rated power. *)
Theorem runner_output_length_and_range
  (wind_speeds : list R) (air_density blade_radius power_coefficient : R)
  (rated_power : Z) (cut_in_speed cut_out_speed : R) :
  Forall (fun speed => 0 <= speed) wind_speeds ->
  0 < air_density -> 0 < blade_radius -> 0 < power_coefficient ->
  0 < rated_power_watts rated_power ->
  let outputs :=
    power_outputs air_density blade_radius power_coefficient rated_power
      cut_in_speed cut_out_speed wind_speeds in
  length outputs = length wind_speeds
  /\ (forall i : nat,
        outputs !! i
        = sample_power air_density blade_radius power_coefficient
            (rated_power_watts rated_power) cut_in_speed cut_out_speed
          <$> (wind_speeds !! i))
  /\ Forall (fun p => 0 <= p <= rated_power_watts rated_power) outputs.
Proof.
  intros Hws Hrho Hr Hcp Hrated outputs. subst outputs.
  split; [apply power_outputs_length | split; [apply power_outputs_lookup |]].
  rewrite power_outputs_map. apply Forall_fmap.
  eapply Forall_impl; [exact Hws |].
  intros speed Hs. simpl. apply sample_power_range; lra.
Qed.

Lemma runner_output_length_and_range_witness :
  length (power_outputs 1.225 45.0 0.45 2000 3 25 [7; 1; 20]) = 3%nat
  /\ Forall (fun p => 0 <= p <= rated_power_watts 2000)
       (power_outputs 1.225 45.0 0.45 2000 3 25 [7; 1; 20]).
Proof.
  assert (Hws : Forall (fun speed => 0 <= speed) [7; 1; 20])
    by (repeat constructor; lra).
  assert (Hrated : 0 < rated_power_watts 2000)
    by (apply rated_power_watts_pos; lia).
  destruct (runner_output_length_and_range [7; 1; 20] 1.225 45.0 0.45 2000 3 25
              Hws ltac:(lra) ltac:(lra) ltac:(lra) Hrated) as (Hlen & _ & Hrange).
  split; [exact Hlen | exact Hrange].
Defined.

(** ** The capacity factor *)

(** numpy's sum and the sum of the arithmetic mean agree on the reals. *)
Lemma np_sum_fold_left (xs : list R) : np_sum xs = fold_left Rplus xs 0.
Proof.
  unfold np_sum. symmetry. apply fold_symmetric.
  - intros x y z. ring.
  - intros y. ring.
Qed.

Lemma arithmetic_mean_np_sum (xs : list R) :
  arithmetic_mean xs = np_sum xs / INR (length xs).
Proof. unfold arithmetic_mean. now rewrite np_sum_fold_left. Qed.

Lemma np_sum_bounds (xs : list R) (bound : R) :
  Forall (fun x => 0 <= x <= bound) xs ->
  0 <= np_sum xs <= INR (length xs) * bound.
Proof.
  induction 1 as [|x rest Hx _ IH]; simpl np_sum; simpl length.
  - simpl. lra.
  - rewrite S_INR. lra.
Qed.

Lemma length_pos_INR {A : Type} (xs : list A) : xs <> [] -> 0 < INR (length xs).
Proof.
  intros Hne. destruct xs as [|x rest]; [congruence |].
  apply lt_0_INR. simpl. lia.
Qed.

Lemma np_mean_nonempty (xs : list R) :
  xs <> [] -> np_mean xs = Returns (Fin (arithmetic_mean xs)).
Proof.
  intros Hne. pose proof (length_pos_INR xs Hne) as Hlen.
  rewrite arithmetic_mean_np_sum. unfold np_mean, np_truediv.
  rewrite bool_decide_eq_false_2 by lra. reflexivity.
Qed.

Lemma np_mean_empty : np_mean [] = Returns NaN.
Proof.
  unfold np_mean, np_truediv. simpl.
  now rewrite !bool_decide_eq_true_2.
Qed.

Lemma arithmetic_mean_bounds (xs : list R) (bound : R) :
  xs <> [] -> Forall (fun x => 0 <= x <= bound) xs ->
  0 <= arithmetic_mean xs <= bound.
Proof.
  intros Hne Hall. pose proof (length_pos_INR xs Hne) as Hlen.
  destruct (np_sum_bounds xs bound Hall) as [Hlo Hhi].
  rewrite arithmetic_mean_np_sum. split.
  - unfold Rdiv. apply Rmult_le_pos; [assumption |].
    left. now apply Rinv_0_lt_compat.
  - apply Rmult_le_reg_r with (INR (length xs)); [assumption |].
    unfold Rdiv. rewrite Rmult_assoc, Rinv_l by lra. lra.
Qed.

Lemma calculate_capacity_factor_unfold (power_outputs : list R) (rated_power : R) :
  calculate_capacity_factor power_outputs rated_power
  = Returns (np_truediv (np_truediv (Fin (np_sum power_outputs))
                           (INR (length power_outputs))) rated_power).
Proof. reflexivity. Qed.

(** C2, as the code has it.  The aggregator has no guard: applied to an
    empty sequence it raises nothing and returns NaN, whatever the rated
    power, and on every input it returns a value. *)
Theorem capacity_factor_of_empty_is_nan :
  (forall rated_power : R, calculate_capacity_factor [] rated_power = Returns NaN)
  /\ (forall (power_outputs : list R) (rated_power : R),
        exists value, calculate_capacity_factor power_outputs rated_power
                      = Returns value).
Proof.
  split.
  - intros rated_power. rewrite calculate_capacity_factor_unfold. simpl.
    now rewrite !bool_decide_eq_true_2.
  - intros power_outputs rated_power. eexists. reflexivity.
Qed.

(** C2, as stated, fails: on the empty sequence and a 2 MW rating the
    aggregator returns NaN instead of raising [InvalidArgument]. *)
Lemma capacity_factor_of_empty_does_not_raise :
  calculate_capacity_factor [] 2000000 = Returns NaN
  /\ calculate_capacity_factor [] 2000000 <> Raises InvalidArgument.
Proof.
  assert (H : calculate_capacity_factor [] 2000000 = Returns NaN).
  { rewrite calculate_capacity_factor_unfold. simpl.
    now rewrite !bool_decide_eq_true_2. }
  split; [exact H | rewrite H; discriminate].
Qed.

(** *** Rounded sums *)

Lemma np_sum_app (xs ys : list R) : np_sum (xs ++ ys) = np_sum xs + np_sum ys.
Proof.
  induction xs as [|x xs IH]; simpl; [lra |].
  fold (np_sum (xs ++ ys)) (np_sum xs). rewrite IH. lra.
Qed.

Lemma np_sum_Permutation (xs ys : list R) : xs ≡ₚ ys -> np_sum xs = np_sum ys.
Proof.
  induction 1 as [| x xs ys _ IH | x y xs | xs ys zs _ IH1 _ IH2]; simpl.
  - reflexivity.
  - fold (np_sum xs) (np_sum ys). lra.
  - fold (np_sum xs). lra.
  - congruence.
Qed.

(** Without rounding the order of the additions does not matter. *)
Lemma np_sum_rounded_exact (a : list R) (s : R) :
  np_sum_rounded (fun x => x) a s -> s = np_sum a.
Proof.
  induction 1 as [| x | a a1 a2 s1 s2 Hperm _ IH1 _ IH2].
  - reflexivity.
  - simpl. lra.
  - rewrite (np_sum_Permutation a (a1 ++ a2) Hperm), np_sum_app. lra.
Qed.

(** The accumulation from the first to the last element is one of the
    orders of addition. *)
Lemma np_sum_sequential_from (rnd : R -> R) (a done : list R) (acc : R) :
  np_sum_rounded rnd done acc ->
  np_sum_rounded rnd (done ++ a) (fold_left (fun acc x => rnd (acc + x)) a acc).
Proof.
  revert done acc. induction a as [|x a IH]; intros done acc Hacc; simpl.
  - now rewrite app_nil_r.
  - replace (done ++ x :: a) with ((done ++ [x]) ++ a)
      by now rewrite <- app_assoc.
    apply IH. eapply np_sum_rounded_add; [reflexivity | exact Hacc |].
    apply np_sum_rounded_single.
Qed.

Lemma np_sum_sequential_rounded (rnd : R -> R) (a : list R) :
  np_sum_rounded rnd a (np_sum_sequential rnd a).
Proof.
  apply (np_sum_sequential_from rnd a [] 0). apply np_sum_rounded_empty.
Qed.

Lemma np_sum_rounded_nonneg (rnd : R -> R) (a : list R) (s : R) :
  rounding_monotone rnd -> rounding_exact_on_integers rnd ->
  np_sum_rounded rnd a s -> Forall (fun x => 0 <= x) a -> 0 <= s.
Proof.
  intros Hmono Hexact Hsum. induction Hsum as [| x | a a1 a2 s1 s2 Hperm _ IH1 _ IH2];
    intros Hall.
  - lra.
  - now inversion Hall.
  - rewrite Hperm in Hall. apply Forall_app in Hall as [Hall1 Hall2].
    specialize (IH1 Hall1). specialize (IH2 Hall2).
    rewrite <- (Hexact 0%Z) by lia. apply Hmono. lra.
Qed.

Lemma np_sum_rounded_le (rnd : R -> R) (z : Z) (a : list R) (s : R) :
  rounding_monotone rnd -> rounding_exact_on_integers rnd -> (0 <= z)%Z ->
  np_sum_rounded rnd a s -> Forall (fun x => x <= IZR z) a ->
  (Z.of_nat (length a) * z <= 2 ^ 53)%Z ->
  s <= IZR (Z.of_nat (length a) * z).
Proof.
  intros Hmono Hexact Hz Hsum.
  induction Hsum as [| x | a a1 a2 s1 s2 Hperm _ IH1 _ IH2]; intros Hall Hsmall.
  - change (Z.of_nat (length []) * z)%Z with 0%Z. lra.
  - inversion Hall; subst. simpl length.
    replace (Z.of_nat 1 * z)%Z with z by lia. assumption.
  - rewrite Hperm in Hall. apply Forall_app in Hall as [Hall1 Hall2].
    assert (Hlen : length a = (length a1 + length a2)%nat)
      by now rewrite (Permutation_length Hperm), length_app.
    rewrite Hlen in Hsmall |- *.
    assert (H1 : s1 <= IZR (Z.of_nat (length a1) * z)) by (apply IH1; [assumption | nia]).
    assert (H2 : s2 <= IZR (Z.of_nat (length a2) * z)) by (apply IH2; [assumption | nia]).
    rewrite <- (Hexact (Z.of_nat (length a1 + length a2) * z)%Z) by nia.
    apply Hmono.
    replace (Z.of_nat (length a1 + length a2) * z)%Z
      with (Z.of_nat (length a1) * z + Z.of_nat (length a2) * z)%Z by lia.
    rewrite plus_IZR. lra.
Qed.

Lemma round_down_monotone : rounding_monotone round_down.
Proof.
  intros x y Hxy. unfold round_down. apply IZR_le.
  destruct (base_Int_part x) as [Hx _]. destruct (base_Int_part y) as [_ Hy].
  assert (Hlt : IZR (Int_part x) < IZR (Int_part y + 1))
    by (rewrite plus_IZR; lra).
  apply lt_IZR in Hlt. lia.
Qed.

Lemma round_down_exact : rounding_exact_on_integers round_down.
Proof.
  intros k _. unfold round_down. f_equal. symmetry.
  apply Int_part_spec. lra.
Qed.

(** C4, as stated, fails on the numbers of the code: three outputs of
    0.1 W under a rated power of 0.1 W, each of them between 0 and the
    rated power, have the capacity factor 1.0000000000000002, above 1.
    (0x1.999999999999ap-4 is the binary64 number that 0.1 denotes.) *)
Lemma capacity_factor_above_one_by_rounding :
  PrimFloat.ltb 0 0x1.999999999999ap-4 = true
  /\ PrimFloat.leb 0x1.999999999999ap-4 0x1.999999999999ap-4 = true
  /\ Binary64.calculate_capacity_factor
       [0x1.999999999999ap-4; 0x1.999999999999ap-4; 0x1.999999999999ap-4]%float
       0x1.999999999999ap-4
     = 0x1.0000000000001p+0%float
  /\ PrimFloat.leb
       (Binary64.calculate_capacity_factor
          [0x1.999999999999ap-4; 0x1.999999999999ap-4; 0x1.999999999999ap-4]%float
          0x1.999999999999ap-4)
       1 = false.
Proof. vm_compute. repeat split. Qed.

(** C4, as the code has it.  For a non-empty sequence and a positive
    rated power the capacity factor is, in exact arithmetic, the
    arithmetic mean of the sequence divided by the rated power, whatever
    the order of the additions.  As computed, with every operation
    rounded, it is not negative when every element lies between 0 and the
    rated power, and it is at most 1 when moreover the rated power is a
    whole number [z] with [count * z <= 2^53] (as the rated power in watts
    of [main] is); this holds for any rounding that keeps the order and
    leaves those whole numbers unchanged, and any order of the
    additions. *)
Theorem capacity_factor_mean_and_rounded_bounds
  (power_outputs : list R) (rated_power : R) :
  power_outputs <> [] -> 0 < rated_power ->
  calculate_capacity_factor power_outputs rated_power
  = Returns (Fin (arithmetic_mean power_outputs / rated_power))
  /\ (forall factor : R,
        capacity_factor_rounded (fun x => x) power_outputs rated_power factor ->
        factor = arithmetic_mean power_outputs / rated_power)
  /\ (Forall (fun p => 0 <= p <= rated_power) power_outputs ->
      forall (rnd : R -> R) (factor : R),
        rounding_monotone rnd -> rounding_exact_on_integers rnd ->
        capacity_factor_rounded rnd power_outputs rated_power factor ->
        0 <= factor
        /\ (forall z : Z,
              rated_power = IZR z ->
              (Z.of_nat (length power_outputs) * z <= 2 ^ 53)%Z ->
              factor <= 1)).
Proof.
  intros Hne Hrated.
  pose proof (length_pos_INR power_outputs Hne) as Hlen.
  split; [| split].
  - unfold calculate_capacity_factor. rewrite np_mean_nonempty by assumption.
    simpl. unfold np_truediv. now rewrite bool_decide_eq_false_2 by lra.
  - intros factor (mean & (s & Hsum & ->) & ->).
    apply np_sum_rounded_exact in Hsum as ->.
    now rewrite arithmetic_mean_np_sum.
  - intros Hall rnd factor Hmono Hexact (mean & (s & Hsum & ->) & ->).
    assert (Hzero : rnd 0 = 0) by (apply (Hexact 0%Z); lia).
    assert (Hone : rnd 1 = 1) by (apply (Hexact 1%Z); lia).
    assert (Hinvn : 0 < / INR (length power_outputs))
      by now apply Rinv_0_lt_compat.
    assert (Hinvr : 0 < / rated_power) by now apply Rinv_0_lt_compat.
    split.
    + assert (Hs : 0 <= s).
      { apply (np_sum_rounded_nonneg rnd power_outputs); try assumption.
        eapply Forall_impl; [exact Hall |]. simpl. intros p Hp. lra. }
      assert (Hmean : 0 <= rnd (s / INR (length power_outputs))).
      { rewrite <- Hzero. apply Hmono. unfold Rdiv. nra. }
      rewrite <- Hzero. apply Hmono. unfold Rdiv. nra.
    + intros z -> Hsmall.
      assert (Hz : (0 < z)%Z) by now apply lt_IZR.
      assert (Hcount : (0 < Z.of_nat (length power_outputs))%Z)
        by (destruct power_outputs; [congruence | simpl; lia]).
      assert (Hs : s <= IZR (Z.of_nat (length power_outputs) * z)).
      { apply (np_sum_rounded_le rnd z power_outputs); try assumption; [lia |].
        eapply Forall_impl; [exact Hall |]. simpl. intros p Hp. lra. }
      assert (Hmean : rnd (s / INR (length power_outputs)) <= IZR z).
      { rewrite <- (Hexact z) by nia. apply Hmono.
        rewrite mult_IZR, <- INR_IZR_INZ in Hs.
        apply Rmult_le_reg_r with (INR (length power_outputs)); [assumption |].
        unfold Rdiv. rewrite Rmult_assoc, Rinv_l by lra. lra. }
      rewrite <- Hone. apply Hmono.
      apply Rmult_le_reg_r with (IZR z); [assumption |].
      unfold Rdiv. rewrite Rmult_assoc, Rinv_l by lra. lra.
Qed.

Lemma capacity_factor_mean_and_rounded_bounds_witness :
  0 <= round_down
         (round_down (np_sum_sequential round_down [0; 1000000; 2000000] / INR 3)
          / 2000000)
    <= 1.
Proof.
  destruct (capacity_factor_mean_and_rounded_bounds [0; 1000000; 2000000] 2000000)
    as (_ & _ & Hrounded); [discriminate | lra |].
  assert (Hall : Forall (fun p => 0 <= p <= 2000000) [0; 1000000; 2000000])
    by (repeat (constructor 2; [lra |]); constructor 1).
  destruct (Hrounded Hall round_down
              (round_down
                 (round_down
                    (np_sum_sequential round_down [0; 1000000; 2000000] / INR 3)
                  / 2000000))
              round_down_monotone round_down_exact) as [Hlo Hhi].
  - eexists. split; [| reflexivity].
    eexists. split; [apply np_sum_sequential_rounded | reflexivity].
  - split; [exact Hlo |].
    apply (Hhi 2000000%Z); [reflexivity |].
    apply Z.leb_le. reflexivity.
Defined.

(** ** The energy figures *)

Lemma average_power_nonempty
  (air_density blade_radius power_coefficient : R) (rated_power : Z)
  (cut_in_speed cut_out_speed : R) (wind_speeds : list R) :
  wind_speeds <> [] ->
  average_power air_density blade_radius power_coefficient rated_power
    cut_in_speed cut_out_speed wind_speeds
  = Returns (Fin (arithmetic_mean
                    (power_outputs air_density blade_radius power_coefficient
                       rated_power cut_in_speed cut_out_speed wind_speeds))).
Proof.
  intros Hne. unfold average_power. apply np_mean_nonempty.
  intros Hnil. apply Hne. apply length_zero_iff_nil.
  rewrite <- (power_outputs_length air_density blade_radius power_coefficient
                rated_power cut_in_speed cut_out_speed).
  now rewrite Hnil.
Qed.

Lemma energy_of_finite (a : R) :
  daily_energy (Fin a) = Fin (a * 24 / 1000)
  /\ yearly_energy (Fin a) = Fin (a * 8760 / 1000000).
Proof.
  unfold daily_energy, yearly_energy, hours_per_year, np_multiply, np_truediv.
  now rewrite !bool_decide_eq_false_2 by lra.
Qed.

(** C6.  The year has the fixed 8760 hours; the average power computed
    by a run over a non-empty sample is a finite number [a], and from it
    the daily energy is [a * 24 / 1000] and the yearly energy
    [a * 8760 / 1000000]. *)
Theorem energy_from_average_power
  (air_density blade_radius power_coefficient : R) (rated_power : Z)
  (cut_in_speed cut_out_speed : R) (wind_speeds : list R) :
  wind_speeds <> [] ->
  hours_per_year = 8760
  /\ exists a : R,
       average_power air_density blade_radius power_coefficient rated_power
         cut_in_speed cut_out_speed wind_speeds = Returns (Fin a)
       /\ daily_energy (Fin a) = Fin (a * 24 / 1000)
       /\ yearly_energy (Fin a) = Fin (a * 8760 / 1000000).
Proof.
  intros Hne. split; [reflexivity |].
  eexists. split; [apply average_power_nonempty; assumption |].
  apply energy_of_finite.
Qed.

Lemma energy_from_average_power_witness :
  exists a : R,
    average_power 1.225 45.0 0.45 2000 3 25 [7; 1; 20] = Returns (Fin a)
    /\ daily_energy (Fin a) = Fin (a * 24 / 1000)
    /\ yearly_energy (Fin a) = Fin (a * 8760 / 1000000).
Proof.
  apply (energy_from_average_power 1.225 45.0 0.45 2000 3 25 [7; 1; 20]).
  discriminate.
Defined.

(** ** The exported table *)

Section ExportTable.
Variables (air_density blade_radius power_coefficient : R).
Variable rated_power : Z.
Variables (cut_in_speed cut_out_speed : R).

#[local] Abbreviation table :=
  (full_data air_density blade_radius power_coefficient rated_power
     cut_in_speed cut_out_speed).
#[local] Abbreviation label_of := (status_label cut_in_speed cut_out_speed).

Lemma np_where_labels (wind_speeds : list R) :
  np_where
    (np_and (np_greater_equal wind_speeds cut_in_speed)
            (np_less_equal wind_speeds cut_out_speed))
    "Operating"%string "Idle"%string
  = map label_of wind_speeds.
Proof.
  unfold np_where, np_and, np_greater_equal, np_less_equal.
  induction wind_speeds as [|speed rest IH]; simpl; [reflexivity |].
  f_equal. exact IH.
Qed.

Lemma operating_status_lookup (wind_speeds : list R) (i : nat) :
  Operating_Status (table wind_speeds) !! i = label_of <$> (wind_speeds !! i).
Proof. simpl. rewrite np_where_labels. apply list_lookup_fmap. Qed.

Lemma power_output_W_lookup (wind_speeds : list R) (i : nat) :
  Power_Output_W (table wind_speeds) !! i
  = sample_power air_density blade_radius power_coefficient
      (rated_power_watts rated_power) cut_in_speed cut_out_speed
    <$> (wind_speeds !! i).
Proof. simpl. apply power_outputs_lookup. Qed.

Lemma label_of_operating (speed : R) :
  label_of speed = "Operating"%string <-> cut_in_speed <= speed <= cut_out_speed.
Proof.
  unfold status_label. repeat case_bool_decide; simpl; split; intros Hside;
    try reflexivity; try discriminate; try lra; exfalso; lra.
Qed.

Lemma label_of_idle (speed : R) :
  label_of speed = "Idle"%string <-> speed < cut_in_speed \/ speed > cut_out_speed.
Proof.
  unfold status_label. repeat case_bool_decide; simpl; split; intros Hside;
    try reflexivity; try discriminate; try lra; exfalso; lra.
Qed.

Lemma label_of_cases (speed : R) :
  label_of speed = "Operating"%string \/ label_of speed = "Idle"%string.
Proof. unfold status_label. destruct (_ && _); [left | right]; reflexivity. Qed.
End ExportTable.

(** C7.  Every sample has a status label in the exported table; it is
    "Operating" or "Idle", and it is "Operating" exactly when
    [cut_in_speed <= speed <= cut_out_speed], both limits included, which
    is exactly when the runner's zeroing condition ([speed < cut_in_speed]
    or [speed > cut_out_speed]) is false. *)
Theorem operating_status_is_inclusive_range
  (air_density blade_radius power_coefficient : R) (rated_power : Z)
  (cut_in_speed cut_out_speed : R) (wind_speeds : list R)
  (i : nat) (speed : R) :
  wind_speeds !! i = Some speed ->
  exists label : string,
    Operating_Status
      (full_data air_density blade_radius power_coefficient rated_power
         cut_in_speed cut_out_speed wind_speeds) !! i = Some label
    /\ (label = "Operating"%string \/ label = "Idle"%string)
    /\ (label = "Operating"%string <-> cut_in_speed <= speed <= cut_out_speed)
    /\ (label = "Operating"%string <->
        ~ (speed < cut_in_speed \/ speed > cut_out_speed))
    /\ (label = "Operating"%string <->
        bool_decide (speed < cut_in_speed) || bool_decide (speed > cut_out_speed)
        = false).
Proof.
  intros Hi. exists (status_label cut_in_speed cut_out_speed speed).
  rewrite operating_status_lookup, Hi. simpl.
  split; [reflexivity |]. split; [apply label_of_cases |].
  split; [apply label_of_operating |].
  rewrite label_of_operating. split.
  - split; intros H; lra.
  - rewrite orb_false_iff, !bool_decide_eq_false. split; intros H; lra.
Qed.

Lemma operating_status_is_inclusive_range_witness :
  exists label : string,
    Operating_Status (full_data 1.225 45.0 0.45 2000 3 25 [3; 1; 25]) !! 0%nat
    = Some label
    /\ (label = "Operating"%string <-> 3 <= 3 <= 25).
Proof.
  destruct (operating_status_is_inclusive_range 1.225 45.0 0.45 2000 3 25
              [3; 1; 25] 0 3 eq_refl) as (label & Hlabel & _ & Hiff & _).
  exists label. split; [exact Hlabel | exact Hiff].
Defined.

(** C10.  In the exported table a row labelled "Idle" has power exactly
    0, so a row with a non-zero power is labelled "Operating". *)
Theorem idle_rows_have_zero_power
  (air_density blade_radius power_coefficient : R) (rated_power : Z)
  (cut_in_speed cut_out_speed : R) (wind_speeds : list R) (i : nat) :
  let table :=
    full_data air_density blade_radius power_coefficient rated_power
      cut_in_speed cut_out_speed wind_speeds in
  (Operating_Status table !! i = Some "Idle"%string ->
   Power_Output_W table !! i = Some 0)
  /\ (forall p : R,
        Power_Output_W table !! i = Some p -> p <> 0 ->
        Operating_Status table !! i = Some "Operating"%string).
Proof.
  intros table. subst table.
  rewrite operating_status_lookup, power_output_W_lookup.
  destruct (wind_speeds !! i) as [speed|]; simpl; [| split; [| intros p]; discriminate].
  split.
  - intros Hidle. injection Hidle as Hidle. apply label_of_idle in Hidle.
    now rewrite sample_power_idle.
  - intros p Hp Hnz. injection Hp as Hp.
    destruct (label_of_cases cut_in_speed cut_out_speed speed) as [Hop | Hidle];
      [now rewrite Hop |].
    apply label_of_idle in Hidle. rewrite sample_power_idle in Hp by assumption.
    congruence.
Qed.

Lemma idle_rows_have_zero_power_witness :
  Power_Output_W (full_data 1.225 45.0 0.45 2000 3 25 [7; 1; 20]) !! 1%nat
  = Some 0.
Proof.
  apply (idle_rows_have_zero_power 1.225 45.0 0.45 2000 3 25 [7; 1; 20] 1).
  rewrite operating_status_lookup. simpl. unfold status_label.
  now rewrite (bool_decide_eq_false_2 (1 >= 3)) by lra.
Defined.

(** ** The presets *)

Lemma presets_lookup_other (name : string) :
  name <> "Small (1 MW)"%string -> name <> "Medium (2 MW)"%string ->
  name <> "Large (5 MW)"%string -> presets !! name = None.
Proof.
  intros Hs Hm Hl. unfold presets.
  rewrite !lookup_insert_ne by congruence.
  rewrite lookup_singleton_ne by congruence. reflexivity.
Qed.

(** C9.  The preset lookup is a total function: each of the three names
    gives its constant record, and every other name gives the empty
    mapping. *)
Theorem preset_lookup_total :
  get_preset_parameters "Small (1 MW)"
  = {[ "blade_radius"%string := PyFloat 32.0;
       "power_coefficient"%string := PyFloat 0.42;
       "rated_power"%string := PyInt 1000 ]}
  /\ get_preset_parameters "Medium (2 MW)"
     = {[ "blade_radius"%string := PyFloat 45.0;
          "power_coefficient"%string := PyFloat 0.45;
          "rated_power"%string := PyInt 2000 ]}
  /\ get_preset_parameters "Large (5 MW)"
     = {[ "blade_radius"%string := PyFloat 63.0;
          "power_coefficient"%string := PyFloat 0.48;
          "rated_power"%string := PyInt 5000 ]}
  /\ (forall name : string,
        name <> "Small (1 MW)"%string -> name <> "Medium (2 MW)"%string ->
        name <> "Large (5 MW)"%string -> get_preset_parameters name = ∅).
Proof.
  split; [reflexivity |]. split; [reflexivity |]. split; [reflexivity |].
  intros name Hs Hm Hl. unfold get_preset_parameters.
  now rewrite presets_lookup_other.
Qed.

Lemma preset_lookup_total_witness :
  get_preset_parameters "Custom" = ∅
  /\ get_preset_parameters "Medium (2 MW)" !! "blade_radius"%string
     = Some (PyFloat 45.0).
Proof.
  destruct preset_lookup_total as (_ & Hmedium & _ & Hother).
  split; [apply Hother; discriminate |].
  rewrite Hmedium. reflexivity.
Defined.

(** * Further properties of the code *)

(** ** The power law, beyond the claims *)

Lemma cube_le (x y : R) : 0 <= x <= y -> x ^ 3 <= y ^ 3.
Proof. intros H. apply pow_incr. exact H. Qed.


Lemma power_factor_nonneg (rho r cp : R) :
  0 <= rho -> 0 <= cp -> 0 <= 0.5 * rho * (PI * r ^ 2) * cp.
Proof.
  intros Hrho Hcp. pose proof PI_RGT_0 as Hpi.
  assert (Hr2 : 0 <= r ^ 2) by apply pow2_ge_0.
  apply Rmult_le_pos; [apply Rmult_le_pos |]; try lra.
  apply Rmult_le_pos; lra.
Qed.

Lemma power_factor_pos (rho r cp : R) :
  0 < rho -> r <> 0 -> 0 < cp -> 0 < 0.5 * rho * (PI * r ^ 2) * cp.
Proof.
  intros Hrho Hr Hcp. pose proof PI_RGT_0 as Hpi.
  assert (Hr2 : 0 < r ^ 2) by (apply pow_nonzero with (n := 2%nat) in Hr;
    pose proof (pow2_ge_0 r); lra).
  apply Rmult_lt_0_compat; [apply Rmult_lt_0_compat |]; try lra.
  apply Rmult_lt_0_compat; lra.
Qed.

Lemma calculate_power_output_mono (v1 v2 rho r cp : R) :
  0 <= rho -> 0 <= cp -> 0 <= v1 <= v2 ->
  calculate_power_output v1 rho r cp <= calculate_power_output v2 rho r cp.
Proof.
  intros Hrho Hcp Hv. rewrite !calculate_power_output_unfold.
  apply Rmult_le_compat_l; [now apply power_factor_nonneg | now apply cube_le].
Qed.




(** X3.  With positive air density and power coefficient and a non-zero
    blade radius, the power is zero exactly at zero wind speed, and a
    negative speed is not rejected: it gives the negated power of the
    opposite speed. *)
Theorem power_zero_iff_calm (v rho r cp : R) :
  0 < rho -> r <> 0 -> 0 < cp ->
  (calculate_power_output v rho r cp = 0 <-> v = 0)
  /\ calculate_power_output (- v) rho r cp = - calculate_power_output v rho r cp.
Proof.
  intros Hrho Hr Hcp. rewrite !calculate_power_output_unfold.
  pose proof (power_factor_pos rho r cp Hrho Hr Hcp) as Hk.
  split; [| simpl; ring].
  split.
  - intros Hzero. apply Rmult_integral in Hzero as [Hzero | Hzero]; [lra |].
    destruct (Req_dec v 0) as [Hv | Hv]; [exact Hv |].
    exfalso. revert Hzero. apply pow_nonzero. exact Hv.
  - intros ->. simpl. ring.
Qed.

Lemma power_zero_iff_calm_witness :
  (calculate_power_output 7 1.225 45.0 0.45 = 0 <-> 7 = 0)
  /\ calculate_power_output (Ropp 7) 1.225 45.0 0.45
     = - calculate_power_output 7 1.225 45.0 0.45.
Proof. apply (power_zero_iff_calm 7 1.225 45.0 0.45); lra. Defined.

(** ** The simulation run, beyond the claims *)

Section RunnerBounds.
Variables (air_density blade_radius power_coefficient : R).
Variable rated_power : Z.
Variables (cut_in_speed cut_out_speed : R).

#[local] Abbreviation rated' := (rated_power_watts rated_power).
#[local] Abbreviation run' :=
  (power_outputs air_density blade_radius power_coefficient rated_power
     cut_in_speed cut_out_speed).
#[local] Abbreviation contract' :=
  (sample_power air_density blade_radius power_coefficient rated'
     cut_in_speed cut_out_speed).

Lemma sample_power_le_rated (speed : R) : 0 <= rated' -> contract' speed <= rated'.
Proof.
  intros Hrated. unfold sample_power. case_bool_decide; [lra | apply Rmin_r].
Qed.

(** A speed below a non-negative cut-in speed is idle, so no assumption
    on the sign of the speed is needed. *)
Lemma sample_power_nonneg (speed : R) :
  0 <= cut_in_speed -> 0 <= air_density -> 0 <= power_coefficient ->
  0 <= rated' -> 0 <= contract' speed.
Proof.
  intros Hcut Hrho Hcp Hrated. unfold sample_power.
  case_bool_decide as Hgate; [lra |].
  apply Rmin_glb; [| assumption].
  apply calculate_power_output_nonneg; lra.
Qed.

Lemma sample_power_mono (s1 s2 : R) :
  0 <= cut_in_speed -> 0 <= air_density -> 0 <= power_coefficient ->
  0 <= rated' -> s1 <= s2 <= cut_out_speed ->
  contract' s1 <= contract' s2.
Proof.
  intros Hcut Hrho Hcp Hrated Hs.
  destruct (Rlt_dec s1 cut_in_speed) as [Hidle | Hop].
  - rewrite (sample_power_idle _ _ _ _ _ _ s1) by lra.
    now apply sample_power_nonneg.
  - rewrite !sample_power_operating by lra.
    apply Rle_min_compat_r. apply calculate_power_output_mono; lra.
Qed.

Lemma power_outputs_forall (P : R -> Prop) (wind_speeds : list R) :
  (forall speed, speed ∈ wind_speeds -> P (contract' speed)) ->
  Forall P (run' wind_speeds).
Proof.
  intros HP. rewrite power_outputs_map. apply Forall_fmap, Forall_forall.
  intros speed Hin. now apply HP.
Qed.
End RunnerBounds.

(** X4.  The run distributes over concatenation: the outputs of two
    chunks of samples, put one after the other, are the outputs of the
    whole sample; the empty sample gives the empty output. *)
Theorem run_of_concatenation
  (air_density blade_radius power_coefficient : R) (rated_power : Z)
  (cut_in_speed cut_out_speed : R) (chunk1 chunk2 : list R) :
  power_outputs air_density blade_radius power_coefficient rated_power
    cut_in_speed cut_out_speed (chunk1 ++ chunk2)
  = power_outputs air_density blade_radius power_coefficient rated_power
      cut_in_speed cut_out_speed chunk1
    ++ power_outputs air_density blade_radius power_coefficient rated_power
         cut_in_speed cut_out_speed chunk2
  /\ power_outputs air_density blade_radius power_coefficient rated_power
       cut_in_speed cut_out_speed [] = [].
Proof.
  split; [| reflexivity].
  rewrite !power_outputs_map. apply map_app.
Qed.

(** X5.  Whatever the wind speeds are (negative ones included) and
    whatever the order of the two limits, every output of the run lies
    between 0 and the rated power, as soon as the cut-in speed, the air
    density, the power coefficient and the rated power are not negative. *)
Theorem run_outputs_bounded_for_any_speeds
  (air_density blade_radius power_coefficient : R) (rated_power : Z)
  (cut_in_speed cut_out_speed : R) (wind_speeds : list R) :
  0 <= cut_in_speed -> 0 <= air_density -> 0 <= power_coefficient ->
  (0 <= rated_power)%Z ->
  Forall (fun p => 0 <= p <= rated_power_watts rated_power)
    (power_outputs air_density blade_radius power_coefficient rated_power
       cut_in_speed cut_out_speed wind_speeds).
Proof.
  intros Hcut Hrho Hcp Hrated.
  assert (Hw : 0 <= rated_power_watts rated_power)
    by (rewrite rated_power_watts_eq; apply IZR_le in Hrated; lra).
  apply power_outputs_forall. intros speed _. split.
  - now apply sample_power_nonneg.
  - now apply sample_power_le_rated.
Qed.

Lemma run_outputs_bounded_for_any_speeds_witness :
  Forall (fun p => 0 <= p <= rated_power_watts 2000)
    (power_outputs 1.225 45.0 0.45 2000 3 25 [-2; 7; 40]).
Proof.
  apply (run_outputs_bounded_for_any_speeds 1.225 45.0 0.45 2000 3 25 [-2; 7; 40]);
    first [lra | lia].
Defined.

(** X6.  Up to the cut-out speed the run is non-decreasing in the wind
    speed: of two samples, the one with the larger speed (not above
    cut-out) has at least the power of the other. *)
Theorem run_monotone_below_cut_out
  (air_density blade_radius power_coefficient : R) (rated_power : Z)
  (cut_in_speed cut_out_speed : R) (wind_speeds : list R)
  (i j : nat) (speed_i speed_j power_i power_j : R) :
  0 <= cut_in_speed -> 0 <= air_density -> 0 <= power_coefficient ->
  (0 <= rated_power)%Z ->
  wind_speeds !! i = Some speed_i -> wind_speeds !! j = Some speed_j ->
  speed_i <= speed_j <= cut_out_speed ->
  power_outputs air_density blade_radius power_coefficient rated_power
    cut_in_speed cut_out_speed wind_speeds !! i = Some power_i ->
  power_outputs air_density blade_radius power_coefficient rated_power
    cut_in_speed cut_out_speed wind_speeds !! j = Some power_j ->
  power_i <= power_j.
Proof.
  intros Hcut Hrho Hcp Hrated Hi Hj Hs.
  rewrite !power_outputs_lookup, Hi, Hj. simpl.
  intros [= <-] [= <-].
  apply sample_power_mono; try assumption.
  rewrite rated_power_watts_eq. apply IZR_le in Hrated. lra.
Qed.

Lemma run_monotone_below_cut_out_witness :
  0 <= Rmin (calculate_power_output 7 1.225 45.0 0.45) (rated_power_watts 2000).
Proof.
  apply (run_monotone_below_cut_out 1.225 45.0 0.45 2000 3 25 [7; 1; 20] 1 0 1 7);
    try first [lra | lia | reflexivity].
  - rewrite power_outputs_lookup. simpl.
    now rewrite sample_power_idle by lra.
  - rewrite power_outputs_lookup. simpl.
    now rewrite sample_power_operating by lra.
Defined.

Lemma power_outputs_all_idle
  (air_density blade_radius power_coefficient : R) (rated_power : Z)
  (cut_in_speed cut_out_speed : R) (wind_speeds : list R) :
  Forall (fun speed => speed < cut_in_speed \/ speed > cut_out_speed) wind_speeds ->
  power_outputs air_density blade_radius power_coefficient rated_power
    cut_in_speed cut_out_speed wind_speeds
  = replicate (length wind_speeds) 0.
Proof.
  intros Hall. rewrite power_outputs_map.
  induction Hall as [|speed rest Hspeed _ IH]; simpl; [reflexivity |].
  rewrite sample_power_idle by assumption. now rewrite IH.
Qed.

Lemma power_outputs_all_clamped
  (air_density blade_radius power_coefficient : R) (rated_power : Z)
  (cut_in_speed cut_out_speed : R) (wind_speeds : list R) :
  Forall (fun speed =>
            cut_in_speed <= speed <= cut_out_speed
            /\ rated_power_watts rated_power
               <= calculate_power_output speed air_density blade_radius
                    power_coefficient) wind_speeds ->
  power_outputs air_density blade_radius power_coefficient rated_power
    cut_in_speed cut_out_speed wind_speeds
  = replicate (length wind_speeds) (rated_power_watts rated_power).
Proof.
  intros Hall. rewrite power_outputs_map.
  induction Hall as [|speed rest [Hrange Hover] _ IH]; simpl; [reflexivity |].
  rewrite sample_power_operating by lra.
  rewrite Rmin_right by assumption. now rewrite IH.
Qed.

(** X7.  Above the cut-out speed the power drops back to 0 however large
    the theoretical power is, and when the limits are inverted
    ([cut_out_speed < cut_in_speed]) every sample is idle and the whole
    output is 0. *)
Theorem run_zero_outside_limits
  (air_density blade_radius power_coefficient : R) (rated_power : Z)
  (cut_in_speed cut_out_speed : R) (wind_speeds : list R) :
  (Forall (fun speed => speed < cut_in_speed \/ cut_out_speed < speed) wind_speeds
   \/ cut_out_speed < cut_in_speed) ->
  power_outputs air_density blade_radius power_coefficient rated_power
    cut_in_speed cut_out_speed wind_speeds
  = replicate (length wind_speeds) 0.
Proof.
  intros Hidle. apply power_outputs_all_idle.
  destruct Hidle as [Hall | Hinv].
  - eapply Forall_impl; [exact Hall |]. intros speed [H | H]; [left | right]; lra.
  - apply Forall_forall. intros speed _.
    destruct (Rlt_dec speed cut_in_speed); [left | right]; lra.
Qed.

Lemma run_zero_outside_limits_witness :
  power_outputs 1.225 45.0 0.45 2000 25 3 [7; 1; 20] = [0; 0; 0].
Proof.
  apply (run_zero_outside_limits 1.225 45.0 0.45 2000 25 3 [7; 1; 20]).
  right. lra.
Defined.

(** ** The capacity factor and the energy figures, beyond the claims *)

Lemma calculate_capacity_factor_nonempty (power_outputs : list R) (rated_power : R) :
  power_outputs <> [] -> rated_power <> 0 ->
  calculate_capacity_factor power_outputs rated_power
  = Returns (Fin (arithmetic_mean power_outputs / rated_power)).
Proof.
  intros Hne Hrated. unfold calculate_capacity_factor.
  rewrite np_mean_nonempty by assumption. simpl.
  unfold np_truediv. now rewrite bool_decide_eq_false_2.
Qed.

Lemma np_sum_replicate (n : nat) (c : R) : np_sum (replicate n c) = INR n * c.
Proof.
  induction n as [|n IH]; [simpl; lra |].
  rewrite S_INR. simpl replicate. simpl np_sum. fold (np_sum (replicate n c)).
  rewrite IH. lra.
Qed.

Lemma arithmetic_mean_replicate (n : nat) (c : R) :
  n <> 0%nat -> arithmetic_mean (replicate n c) = c.
Proof.
  intros Hn. rewrite arithmetic_mean_np_sum.
  rewrite np_sum_replicate, length_replicate.
  assert (0 < INR n) by (apply lt_0_INR; lia).
  field. lra.
Qed.

Lemma power_outputs_nonempty
  (air_density blade_radius power_coefficient : R) (rated_power : Z)
  (cut_in_speed cut_out_speed : R) (wind_speeds : list R) :
  wind_speeds <> [] ->
  power_outputs air_density blade_radius power_coefficient rated_power
    cut_in_speed cut_out_speed wind_speeds <> [].
Proof.
  intros Hne Hnil. apply Hne. apply length_zero_iff_nil.
  rewrite <- (power_outputs_length air_density blade_radius power_coefficient
                rated_power cut_in_speed cut_out_speed).
  now rewrite Hnil.
Qed.

(** X8.  A zero rated power is not rejected and raises nothing: for a
    non-empty sequence the capacity factor is then NaN when the powers sum
    to 0, plus infinity when the sum is positive and minus infinity when
    it is negative. *)
Theorem capacity_factor_with_zero_rated_power (power_outputs : list R) :
  power_outputs <> [] ->
  calculate_capacity_factor power_outputs 0
  = Returns (if bool_decide (np_sum power_outputs = 0) then NaN
             else if bool_decide (0 < np_sum power_outputs) then PInf
                  else NInf).
Proof.
  intros Hne. pose proof (length_pos_INR power_outputs Hne) as Hlen.
  unfold calculate_capacity_factor. rewrite np_mean_nonempty by assumption.
  simpl. rewrite arithmetic_mean_np_sum. unfold np_truediv.
  rewrite (bool_decide_eq_true_2 (0 = 0)) by reflexivity.
  set (total := np_sum power_outputs).
  assert (Hinv : 0 < / INR (length power_outputs))
    by now apply Rinv_0_lt_compat.
  f_equal. unfold Rdiv. repeat case_bool_decide; try reflexivity; exfalso; nra.
Qed.

Lemma capacity_factor_with_zero_rated_power_witness :
  calculate_capacity_factor [0; 1000000] 0 = Returns PInf.
Proof.
  rewrite (capacity_factor_with_zero_rated_power [0; 1000000]) by discriminate.
  simpl. rewrite bool_decide_eq_false_2 by lra.
  now rewrite bool_decide_eq_true_2 by lra.
Defined.

(** X9.  The run treats the samples one by one, so it commutes with any
    reordering of them: the outputs of a permuted sample are a
    permutation of the outputs, and the outputs of the reversed sample
    are the reversed outputs. *)
Theorem run_commutes_with_reordering
  (air_density blade_radius power_coefficient : R) (rated_power : Z)
  (cut_in_speed cut_out_speed : R) (wind_speeds wind_speeds' : list R) :
  (wind_speeds ≡ₚ wind_speeds' ->
   power_outputs air_density blade_radius power_coefficient rated_power
     cut_in_speed cut_out_speed wind_speeds
   ≡ₚ power_outputs air_density blade_radius power_coefficient rated_power
        cut_in_speed cut_out_speed wind_speeds')
  /\ power_outputs air_density blade_radius power_coefficient rated_power
       cut_in_speed cut_out_speed (reverse wind_speeds)
     = reverse
         (power_outputs air_density blade_radius power_coefficient rated_power
            cut_in_speed cut_out_speed wind_speeds).
Proof.
  rewrite !power_outputs_map. split.
  - intros Hperm. now apply Permutation_map.
  - apply fmap_reverse.
Qed.

Lemma run_commutes_with_reordering_witness :
  power_outputs 1.225 45.0 0.45 2000 3 25 [7; 1; 20]
  ≡ₚ power_outputs 1.225 45.0 0.45 2000 3 25 [1; 7; 20].
Proof.
  apply (run_commutes_with_reordering 1.225 45.0 0.45 2000 3 25
           [7; 1; 20] [1; 7; 20]).
  apply perm_swap.
Defined.

(** X11.  When every sample of a non-empty run is idle (below cut-in or
    above cut-out) and the rated power is not zero, the average power and
    the capacity factor are exactly 0, and so are the daily and the
    yearly energy. *)
Theorem all_idle_run_produces_nothing
  (air_density blade_radius power_coefficient : R) (rated_power : Z)
  (cut_in_speed cut_out_speed : R) (wind_speeds : list R) :
  wind_speeds <> [] -> rated_power <> 0%Z ->
  Forall (fun speed => speed < cut_in_speed \/ speed > cut_out_speed) wind_speeds ->
  average_power air_density blade_radius power_coefficient rated_power
    cut_in_speed cut_out_speed wind_speeds = Returns (Fin 0)
  /\ capacity_factor air_density blade_radius power_coefficient rated_power
       cut_in_speed cut_out_speed wind_speeds = Returns (Fin 0)
  /\ daily_energy (Fin 0) = Fin 0
  /\ yearly_energy (Fin 0) = Fin 0.
Proof.
  intros Hne Hrated Hidle.
  assert (Hlen : length wind_speeds <> 0%nat)
    by (intros H; apply Hne; now apply length_zero_iff_nil).
  assert (Hw : rated_power_watts rated_power <> 0).
  { rewrite rated_power_watts_eq. apply (not_0_IZR rated_power) in Hrated. lra. }
  unfold average_power, capacity_factor.
  rewrite power_outputs_all_idle by assumption.
  assert (Hrep : replicate (length wind_speeds) 0 <> [])
    by (destruct wind_speeds; [congruence | discriminate]).
  rewrite np_mean_nonempty, calculate_capacity_factor_nonempty by assumption.
  rewrite arithmetic_mean_replicate by assumption.
  destruct (energy_of_finite 0) as [Hday Hyear].
  rewrite Hday, Hyear.
  repeat split; do 2 f_equal; field; assumption.
Qed.

Lemma all_idle_run_produces_nothing_witness :
  capacity_factor 1.225 45.0 0.45 2000 3 25 [1; 2; 30] = Returns (Fin 0).
Proof.
  destruct (all_idle_run_produces_nothing 1.225 45.0 0.45 2000 3 25 [1; 2; 30])
    as (_ & Hfactor & _); [discriminate | discriminate | | exact Hfactor].
  repeat constructor; lra.
Defined.

(** X12.  When every sample of a non-empty run is inside the operating
    range with a theoretical power of at least the rated power, and the
    rated power is not zero, the average power is the rated power and the
    capacity factor is exactly 1. *)
Theorem all_rated_run_has_capacity_factor_one
  (air_density blade_radius power_coefficient : R) (rated_power : Z)
  (cut_in_speed cut_out_speed : R) (wind_speeds : list R) :
  wind_speeds <> [] -> rated_power <> 0%Z ->
  Forall (fun speed =>
            cut_in_speed <= speed <= cut_out_speed
            /\ rated_power_watts rated_power
               <= calculate_power_output speed air_density blade_radius
                    power_coefficient) wind_speeds ->
  average_power air_density blade_radius power_coefficient rated_power
    cut_in_speed cut_out_speed wind_speeds
  = Returns (Fin (rated_power_watts rated_power))
  /\ capacity_factor air_density blade_radius power_coefficient rated_power
       cut_in_speed cut_out_speed wind_speeds = Returns (Fin 1).
Proof.
  intros Hne Hrated Hall.
  assert (Hlen : length wind_speeds <> 0%nat)
    by (intros H; apply Hne; now apply length_zero_iff_nil).
  assert (Hw : rated_power_watts rated_power <> 0).
  { rewrite rated_power_watts_eq. apply (not_0_IZR rated_power) in Hrated. lra. }
  unfold average_power, capacity_factor.
  rewrite power_outputs_all_clamped by assumption.
  assert (Hrep : replicate (length wind_speeds) (rated_power_watts rated_power) <> [])
    by (destruct wind_speeds; [congruence | discriminate]).
  rewrite np_mean_nonempty, calculate_capacity_factor_nonempty by assumption.
  rewrite arithmetic_mean_replicate by assumption.
  split; [reflexivity |]. do 2 f_equal. now field.
Qed.

Lemma all_rated_run_has_capacity_factor_one_witness :
  capacity_factor 1.225 45.0 0.45 2000 3 25 [20; 20] = Returns (Fin 1).
Proof.
  destruct (all_rated_run_has_capacity_factor_one 1.225 45.0 0.45 2000 3 25 [20; 20])
    as [_ Hfactor]; [discriminate | discriminate | | exact Hfactor].
  assert (Hover : rated_power_watts 2000 <= calculate_power_output 20 1.225 45.0 0.45).
  { rewrite scenario_power, rated_power_watts_eq. simpl.
    pose proof PI_bounds. lra. }
  constructor 2; [split; [lra | exact Hover] |].
  constructor 2; [split; [lra | exact Hover] | constructor 1].
Defined.

(** X13.  The capacity factor reported by a run is a finite number in
    [0, 1]: for any non-empty sample of real wind speeds, a non-negative
    cut-in speed, air density and power coefficient, and a positive rated
    power. *)
Theorem run_capacity_factor_in_unit_interval
  (air_density blade_radius power_coefficient : R) (rated_power : Z)
  (cut_in_speed cut_out_speed : R) (wind_speeds : list R) :
  wind_speeds <> [] ->
  0 <= cut_in_speed -> 0 <= air_density -> 0 <= power_coefficient ->
  (0 < rated_power)%Z ->
  exists factor : R,
    capacity_factor air_density blade_radius power_coefficient rated_power
      cut_in_speed cut_out_speed wind_speeds = Returns (Fin factor)
    /\ 0 <= factor <= 1.
Proof.
  intros Hne Hcut Hrho Hcp Hrated.
  pose proof (rated_power_watts_pos rated_power Hrated) as Hw.
  set (outputs := power_outputs air_density blade_radius power_coefficient
                    rated_power cut_in_speed cut_out_speed wind_speeds).
  assert (Hout : outputs <> []) by now apply power_outputs_nonempty.
  assert (Hrange : Forall (fun p => 0 <= p <= rated_power_watts rated_power) outputs).
  { apply power_outputs_forall. intros speed _. split.
    - apply sample_power_nonneg; lra.
    - apply sample_power_le_rated; lra. }
  destruct (arithmetic_mean_bounds outputs _ Hout Hrange) as [Hlo Hhi].
  exists (arithmetic_mean outputs / rated_power_watts rated_power). split.
  - unfold capacity_factor. apply calculate_capacity_factor_nonempty; [assumption | lra].
  - split.
    + unfold Rdiv. apply Rmult_le_pos; [assumption |].
      left. now apply Rinv_0_lt_compat.
    + apply Rmult_le_reg_r with (rated_power_watts rated_power); [assumption |].
      unfold Rdiv. rewrite Rmult_assoc, Rinv_l by lra. lra.
Qed.

Lemma run_capacity_factor_in_unit_interval_witness :
  exists factor : R,
    capacity_factor 1.225 45.0 0.45 2000 3 25 [-2; 7; 40] = Returns (Fin factor)
    /\ 0 <= factor <= 1.
Proof.
  apply (run_capacity_factor_in_unit_interval 1.225 45.0 0.45 2000 3 25 [-2; 7; 40]);
    first [discriminate | lra | lia].
Defined.



(** ** The tables, beyond the claims *)

(** X16.  The exported table is well formed: its four columns have the
    length of the sample, the first is the sample itself, and row by row
    the kW column is the W column divided by 1000. *)
Theorem full_data_columns_aligned
  (air_density blade_radius power_coefficient : R) (rated_power : Z)
  (cut_in_speed cut_out_speed : R) (wind_speeds : list R) :
  let table :=
    full_data air_density blade_radius power_coefficient rated_power
      cut_in_speed cut_out_speed wind_speeds in
  Wind_Speed_m_s table = wind_speeds
  /\ length (Power_Output_W table) = length wind_speeds
  /\ length (Power_Output_kW table) = length wind_speeds
  /\ length (Operating_Status table) = length wind_speeds
  /\ (forall i : nat,
        Power_Output_kW table !! i
        = (fun watts => watts / 1000) <$> (Power_Output_W table !! i)).
Proof.
  intros table. subst table. simpl.
  split; [reflexivity |].
  split; [apply power_outputs_length |].
  split; [unfold np_divide; rewrite length_map; apply power_outputs_length |].
  split; [rewrite np_where_labels; apply length_map |].
  intros i. unfold np_divide. apply list_lookup_fmap.
Qed.

(** X17.  The table shown on the page is the first 100 rows of the
    exported one (without the W column): slicing the sample before the
    element-wise operations gives the slices of their results; it has
    [min 100 n] rows for a sample of [n]. *)
Theorem sample_data_is_prefix_of_full_data
  (air_density blade_radius power_coefficient : R) (rated_power : Z)
  (cut_in_speed cut_out_speed : R) (wind_speeds : list R) :
  let shown :=
    sample_data air_density blade_radius power_coefficient rated_power
      cut_in_speed cut_out_speed wind_speeds in
  let table :=
    full_data air_density blade_radius power_coefficient rated_power
      cut_in_speed cut_out_speed wind_speeds in
  Sample.Wind_Speed_m_s shown = take 100 (Wind_Speed_m_s table)
  /\ Sample.Power_Output_kW shown = take 100 (Power_Output_kW table)
  /\ Sample.Operating_Status shown = take 100 (Operating_Status table)
  /\ length (Sample.Wind_Speed_m_s shown) = Nat.min 100 (length wind_speeds)
  /\ length (Sample.Power_Output_kW shown) = Nat.min 100 (length wind_speeds)
  /\ length (Sample.Operating_Status shown) = Nat.min 100 (length wind_speeds).
Proof.
  intros shown table. subst shown table. unfold sample_data. simpl.
  rewrite !np_where_labels. unfold np_divide.
  rewrite <- !fmap_take.
  repeat split; try reflexivity;
    rewrite ?length_fmap, ?length_map, !length_take, ?power_outputs_length;
    reflexivity.
Qed.

(** ** The presets and the widgets *)

(** X18.  For each option of the preset selectbox the defaults of the
    three turbine-design widgets exist, have the widgets' types (floats
    for the sliders, an int for the number input) and lie within the
    widgets' bounds; for any other name the look-up of the defaults
    fails on a missing key. *)
Theorem preset_defaults_fit_widgets (preset : string) :
  (preset ∈ preset_options ->
   exists defaults, turbine_design_defaults preset = Some defaults
                    /\ within_widget_bounds defaults)
  /\ (preset ∉ preset_options -> turbine_design_defaults preset = None).
Proof.
  split.
  - unfold preset_options. rewrite !elem_of_cons, elem_of_nil.
    intros [-> | [-> | [-> | [-> | []]]]]; eexists; (split; [reflexivity |]);
      simpl; repeat split; first [lra | lia].
  - unfold preset_options. rewrite !not_elem_of_cons.
    intros (Hcustom & Hsmall & Hmedium & Hlarge & _).
    unfold turbine_design_defaults, get_preset_parameters.
    rewrite bool_decide_eq_true_2 by assumption.
    now rewrite presets_lookup_other.
Qed.

Lemma preset_defaults_fit_widgets_witness :
  exists defaults, turbine_design_defaults "Medium (2 MW)" = Some defaults
                   /\ within_widget_bounds defaults.
Proof.
  apply (preset_defaults_fit_widgets "Medium (2 MW)").
  unfold preset_options. rewrite !elem_of_cons. right. right. left. reflexivity.
Defined.

(** ** The plotted power curve *)

Lemma np_linspace_length (start stop : R) (num : nat) :
  length (np_linspace start stop num) = num.
Proof. unfold np_linspace. now rewrite length_map, length_seq. Qed.

Lemma np_linspace_lookup (start stop : R) (num i : nat) :
  (i < num)%nat ->
  np_linspace start stop num !! i
  = Some (start + INR i * ((stop - start) / INR (num - 1))).
Proof.
  intros Hi. unfold np_linspace.
  rewrite list_lookup_fmap, lookup_seq_lt by assumption. reflexivity.
Qed.

Lemma np_linspace_lookup_inv (start stop : R) (num i : nat) (x : R) :
  np_linspace start stop num !! i = Some x ->
  (i < num)%nat /\ x = start + INR i * ((stop - start) / INR (num - 1)).
Proof.
  intros Hx. assert (Hi : (i < num)%nat).
  { apply lookup_lt_Some in Hx. now rewrite np_linspace_length in Hx. }
  rewrite np_linspace_lookup in Hx by assumption.
  split; [assumption | congruence].
Qed.

Lemma theoretical_speeds_lookup (i : nat) (speed : R) :
  theoretical_speeds !! i = Some speed ->
  (i < 100)%nat /\ speed = INR i * (30 / 99).
Proof.
  intros Hs. apply np_linspace_lookup_inv in Hs as [Hi ->].
  split; [assumption |].
  replace (INR (100 - 1)) with 99
    by (rewrite INR_IZR_INZ; reflexivity).
  lra.
Qed.

Lemma power_curve_kW_lookup
  (air_density blade_radius power_coefficient : R) (rated_power : Z)
  (cut_in_speed cut_out_speed : R) (i : nat) :
  power_curve_kW air_density blade_radius power_coefficient rated_power
    cut_in_speed cut_out_speed !! i
  = (fun speed =>
       sample_power air_density blade_radius power_coefficient
         (rated_power_watts rated_power) cut_in_speed cut_out_speed speed / 1000)
    <$> (theoretical_speeds !! i).
Proof.
  unfold power_curve_kW, theoretical_power, np_divide.
  rewrite loop_from, app_nil_l.
  rewrite !list_lookup_fmap. now destruct (theoretical_speeds !! i).
Qed.

(** X19.  The plotted power curve has 100 points over the speeds
    [30 * i / 99] from 0 to 30 m/s.  With a non-negative cut-in speed,
    air density, power coefficient and rated power, every ordinate lies
    between 0 and the rated power in kW, the curve starts at 0 when the
    cut-in speed is positive, and it never decreases from one point to a
    later one whose speed is not above the cut-out speed. *)
Theorem plotted_power_curve_shape
  (air_density blade_radius power_coefficient : R) (rated_power : Z)
  (cut_in_speed cut_out_speed : R) :
  0 <= cut_in_speed -> 0 <= air_density -> 0 <= power_coefficient ->
  (0 <= rated_power)%Z ->
  let curve :=
    power_curve_kW air_density blade_radius power_coefficient rated_power
      cut_in_speed cut_out_speed in
  length curve = 100%nat
  /\ theoretical_speeds !! 0%nat = Some 0
  /\ theoretical_speeds !! 99%nat = Some 30
  /\ (forall (i : nat) (y : R), curve !! i = Some y -> 0 <= y <= IZR rated_power)
  /\ (0 < cut_in_speed -> curve !! 0%nat = Some 0)
  /\ (forall (i j : nat) (speed_j y_i y_j : R),
        (i <= j)%nat -> theoretical_speeds !! j = Some speed_j ->
        speed_j <= cut_out_speed ->
        curve !! i = Some y_i -> curve !! j = Some y_j -> y_i <= y_j).
Proof.
  intros Hcut Hrho Hcp Hrated curve. subst curve.
  assert (Hw : 0 <= rated_power_watts rated_power)
    by (rewrite rated_power_watts_eq; apply IZR_le in Hrated; lra).
  assert (Hfirst : theoretical_speeds !! 0%nat = Some 0).
  { unfold theoretical_speeds. rewrite np_linspace_lookup by lia.
    f_equal. simpl INR at 1. lra. }
  split; [| split; [exact Hfirst | split; [| split; [| split]]]].
  - unfold power_curve_kW, theoretical_power, np_divide.
    rewrite loop_from, app_nil_l. rewrite !length_map.
    apply np_linspace_length.
  - unfold theoretical_speeds. rewrite np_linspace_lookup by lia.
    f_equal. change (100 - 1)%nat with 99%nat.
    replace (INR 99) with 99 by (rewrite INR_IZR_INZ; reflexivity). lra.
  - intros i y. rewrite power_curve_kW_lookup.
    destruct (theoretical_speeds !! i) as [speed|]; simpl; [| discriminate].
    intros [= <-].
    pose proof (sample_power_nonneg air_density blade_radius power_coefficient
                  rated_power cut_in_speed cut_out_speed speed
                  Hcut Hrho Hcp Hw) as Hlo.
    pose proof (sample_power_le_rated air_density blade_radius power_coefficient
                  rated_power cut_in_speed cut_out_speed speed Hw) as Hhi.
    pose proof (rated_power_watts_eq rated_power) as Hkw. lra.
  - intros Hpos. rewrite power_curve_kW_lookup, Hfirst. simpl.
    rewrite sample_power_idle by lra. f_equal. lra.
  - intros i j speed_j y_i y_j Hij Hj Hout.
    rewrite !power_curve_kW_lookup, Hj. simpl.
    destruct (theoretical_speeds !! i) as [speed_i|] eqn:Hi; simpl; [| discriminate].
    intros [= <-] [= <-].
    apply theoretical_speeds_lookup in Hi as [_ ->].
    pose proof Hj as Hj'. apply theoretical_speeds_lookup in Hj' as [_ Hsj].
    assert (Hle : INR i * (30 / 99) <= speed_j).
    { rewrite Hsj. apply le_INR in Hij. nra. }
    pose proof (sample_power_mono air_density blade_radius power_coefficient
                  rated_power cut_in_speed cut_out_speed
                  (INR i * (30 / 99)) speed_j Hcut Hrho Hcp Hw
                  (conj Hle Hout)) as Hmono.
    lra.
Qed.

Lemma plotted_power_curve_shape_witness :
  length (power_curve_kW 1.225 45.0 0.45 2000 3 25) = 100%nat
  /\ power_curve_kW 1.225 45.0 0.45 2000 3 25 !! 0%nat = Some 0.
Proof.
  destruct (plotted_power_curve_shape 1.225 45.0 0.45 2000 3 25)
    as (Hlen & _ & _ & _ & Hzero & _); try first [lra | lia].
  split; [exact Hlen | apply Hzero; lra].
Defined.

(** ** The download link *)

Ltac div_mod_lia := zify; Z.to_euclidean_division_equations; lia.

Lemma b64_digits_checked :
  forallb (fun k : nat =>
             bool_decide (b64_value (b64_digit (N.of_nat k)) = Some (N.of_nat k)))
          (seq 0 64) = true.
Proof. vm_compute. reflexivity. Qed.

Lemma b64_value_digit (n : N) : (n < 64)%N -> b64_value (b64_digit n) = Some n.
Proof.
  intros Hn. pose proof b64_digits_checked as Hall.
  rewrite forallb_forall in Hall.
  assert (Hin : In (N.to_nat n) (seq 0 64)) by (apply in_seq; lia).
  apply Hall in Hin. rewrite N2Nat.id in Hin.
  now apply bool_decide_eq_true in Hin.
Qed.

Lemma b64_digit_not_pad (n : N) : (n < 64)%N -> b64_digit n <> b64_pad.
Proof.
  intros Hn Heq. pose proof (b64_value_digit n Hn) as Hv.
  rewrite Heq in Hv. discriminate Hv.
Qed.

(** Induction on a list three elements at a time, as the encoder reads it. *)
Lemma list_ind3 {A : Type} (P : list A -> Prop) :
  P [] -> (forall a, P [a]) -> (forall a b, P [a; b]) ->
  (forall a b c rest, P rest -> P (a :: b :: c :: rest)) ->
  forall l, P l.
Proof.
  intros Hnil Hone Htwo Hstep l.
  assert (H : P l /\ (forall a, P (a :: l)) /\ (forall a b, P (a :: b :: l))).
  { induction l as [|x l (IH0 & IH1 & IH2)]; [auto |].
    split; [apply IH1 |]. split; [intros a; apply IH2 |].
    intros a b. now apply Hstep. }
  apply H.
Qed.

Lemma byte_recombine (a : ascii) (n : N) : n = N_of_ascii a -> ascii_of_N n = a.
Proof. intros ->. apply ascii_N_embedding. Qed.

Lemma b64decode_b64encode (data : list ascii) :
  b64decode (b64encode data) = Some data.
Proof.
  induction data as [| a | a b | a b c rest IH] using list_ind3.
  - reflexivity.
  - pose proof (N_ascii_bounded a) as Ha.
    cbn [b64encode b64decode].
    rewrite !b64_value_digit by div_mod_lia. cbn [mbind option_bind].
    rewrite !bool_decide_eq_true_2 by reflexivity.
    do 2 f_equal. apply byte_recombine. div_mod_lia.
  - pose proof (N_ascii_bounded a) as Ha. pose proof (N_ascii_bounded b) as Hb.
    cbn [b64encode b64decode].
    rewrite !b64_value_digit by div_mod_lia. cbn [mbind option_bind].
    rewrite (bool_decide_eq_true_2 (b64_pad = b64_pad)) by reflexivity.
    rewrite bool_decide_eq_false_2 by (apply b64_digit_not_pad; div_mod_lia).
    rewrite ?b64_value_digit by div_mod_lia. cbn [mbind option_bind].
    f_equal. f_equal; [| f_equal]; apply byte_recombine; div_mod_lia.
  - pose proof (N_ascii_bounded a) as Ha. pose proof (N_ascii_bounded b) as Hb.
    pose proof (N_ascii_bounded c) as Hc.
    cbn [b64encode b64decode].
    rewrite !b64_value_digit by div_mod_lia. cbn [mbind option_bind].
    rewrite bool_decide_eq_false_2 by (apply b64_digit_not_pad; div_mod_lia).
    rewrite ?b64_value_digit by div_mod_lia. cbn [mbind option_bind].
    rewrite IH. cbn [mbind option_bind].
    f_equal. f_equal; [| f_equal; [| f_equal]]; apply byte_recombine; div_mod_lia.
Qed.

Lemma b64encode_inj (data1 data2 : list ascii) :
  b64encode data1 = b64encode data2 -> data1 = data2.
Proof.
  intros Heq. apply (f_equal b64decode) in Heq.
  rewrite !b64decode_b64encode in Heq. congruence.
Qed.

Lemma list_ascii_of_string_app (s1 s2 : string) :
  list_ascii_of_string (s1 +:+ s2)
  = list_ascii_of_string s1 ++ list_ascii_of_string s2.
Proof. induction s1 as [|c s1 IH]; simpl; [reflexivity | now rewrite IH]. Qed.

Lemma string_app_inv_tail (s1 s2 t : string) : s1 +:+ t = s2 +:+ t -> s1 = s2.
Proof.
  intros Heq. apply (f_equal list_ascii_of_string) in Heq.
  rewrite !list_ascii_of_string_app in Heq. apply app_inv_tail in Heq.
  apply (f_equal string_of_list_ascii) in Heq.
  now rewrite !string_of_list_ascii_of_string in Heq.
Qed.

Lemma b64_digit_in_alphabet (n : N) :
  b64_digit n ∈ list_ascii_of_string b64_alphabet \/ b64_digit n = b64_pad.
Proof.
  unfold b64_digit.
  destruct (list_ascii_of_string b64_alphabet !! N.to_nat n) as [c|] eqn:Hc.
  - left. simpl. eapply list_elem_of_lookup_2. exact Hc.
  - right. reflexivity.
Qed.

(** X20.  The payload of the download link is the base64 text of the CSV
    and loses nothing: the link is the fixed opening, the payload, and the
    fixed closing around the file name, and decoding the payload gives
    back the bytes of the CSV text. *)
Theorem download_link_payload_decodes_to_csv (csv filename : string) :
  exists payload : string,
    create_download_link csv filename
    = "<a href=" +:+ double_quote +:+ "data:file/csv;base64," +:+ payload
      +:+ double_quote +:+ " download=" +:+ double_quote +:+ filename
      +:+ double_quote +:+ " class=" +:+ double_quote +:+ "stButton"
      +:+ double_quote +:+ ">📥 Download CSV</a>"
    /\ b64decode (list_ascii_of_string payload)
       = Some (list_ascii_of_string csv)
    /\ string_of_list_ascii <$> b64decode (list_ascii_of_string payload)
       = Some csv.
Proof.
  exists (string_of_list_ascii (b64encode (list_ascii_of_string csv))).
  split; [reflexivity |].
  rewrite list_ascii_of_string_of_list_ascii, b64decode_b64encode.
  split; [reflexivity |]. simpl.
  now rewrite string_of_list_ascii_of_string.
Qed.

(** X21.  Two different CSV texts never give the same download link: for
    a given file name the link determines the CSV text. *)
Theorem download_link_injective (csv1 csv2 filename : string) :
  create_download_link csv1 filename = create_download_link csv2 filename ->
  csv1 = csv2.
Proof.
  unfold create_download_link. intros Heq.
  do 3 apply String.app_inj in Heq.
  apply string_app_inv_tail in Heq.
  apply (f_equal list_ascii_of_string) in Heq.
  rewrite !list_ascii_of_string_of_list_ascii in Heq.
  apply b64encode_inj in Heq.
  apply (f_equal string_of_list_ascii) in Heq.
  now rewrite !string_of_list_ascii_of_string in Heq.
Qed.

Lemma download_link_injective_witness :
  "Wind_Speed_m_s"%string = "Wind_Speed_m_s"%string.
Proof.
  apply (download_link_injective "Wind_Speed_m_s" "Wind_Speed_m_s"
           default_filename).
  reflexivity.
Defined.

(** X22.  The base64 text of [n] bytes is made of [4 * ceil(n / 3)]
    characters, each a digit of the alphabet or the padding sign; none is
    a double quote, so the payload cannot end the [href] attribute of the
    link. *)
Theorem b64encode_length_and_alphabet (data : list ascii) :
  length (b64encode data) = (4 * ((length data + 2) / 3))%nat
  /\ Forall (fun c => c ∈ list_ascii_of_string b64_alphabet \/ c = b64_pad)
       (b64encode data)
  /\ Forall (fun c => String c EmptyString <> double_quote) (b64encode data).
Proof.
  assert (Hsafe : forall c,
            c ∈ list_ascii_of_string b64_alphabet \/ c = b64_pad ->
            String c EmptyString <> double_quote).
  { intros c [Hin | ->]; [| discriminate].
    intros [= ->]. revert Hin. simpl. rewrite !elem_of_cons, elem_of_nil.
    intros H. repeat (destruct H as [H | H]; [discriminate H |]). exact H. }
  assert (Halpha : Forall (fun c => c ∈ list_ascii_of_string b64_alphabet
                                    \/ c = b64_pad) (b64encode data)).
  { induction data as [| a | a b | a b c rest IH] using list_ind3;
      cbn [b64encode];
      repeat (apply List.Forall_cons;
              [first [apply b64_digit_in_alphabet | right; reflexivity] |]);
      first [exact IH | apply List.Forall_nil]. }
  split; [| split; [exact Halpha |]].
  - clear Halpha.
    induction data as [| a | a b | a b c rest IH] using list_ind3;
      cbn [b64encode length]; try reflexivity.
    rewrite IH.
    replace (S (S (S (length rest))) + 2)%nat
      with (1 * 3 + (length rest + 2))%nat by lia.
    rewrite Nat.div_add_l by lia. lia.
  - eapply Forall_impl; [exact Halpha | exact Hsafe].
Qed.
